(** * OmniConnect: signaling coordinator and client negotiation logic

    A shallow embedding of
    - the signaling server (server.js): the [clients] map, the
      [waitingQueue] array, the [activePairs] map and the message handler;
    - the browser client: [SignalingService], [WebRTCService] and the
      callbacks wired up in [App.jsx].

    JavaScript [Map]s are finite maps ([gmap]) keyed by the uuid strings,
    the waiting queue is a list, and every handler is a function from the
    state before to the state after together with the messages it wrote
    to sockets. *)

From stdpp Require Import gmap strings list fin_maps.
From Stdlib Require Import ZArith Lia.

(** ** Wire protocol *)

Module Protocol.

(** [WebSocket.readyState]: 0, 1, 2, 3. *)
Inductive ReadyState := CONNECTING | OPEN | CLOSING | CLOSED.

#[global] Instance ReadyState_eq_dec : EqDecision ReadyState.
Proof. solve_decision. Defined.

(** An opaque JSON payload ([message.offer], [message.answer],
    [message.candidate]).  [None] is a missing or null field, the only
    falsy value the client ever tests for; description and candidate
    objects are truthy. *)
Definition Payload := option string.

(** Messages a client writes to the server, by their [type] field. *)
Inductive ClientMsg :=
| FindPartner
| Offer (offer : Payload)
| Answer (answer : Payload)
| IceCandidate (candidate : Payload)
| Skip
| Disconnect
| UnknownType (type : string).

(** Messages the server writes to a client.  The constant human-readable
    [message] texts are left out. *)
Inductive ServerMsg :=
| Connected (userId : string)
| Waiting
| Paired (partnerId : string)
| OfferFrom (offer : Payload) (from : string)
| AnswerFrom (answer : Payload) (from : string)
| IceCandidateFrom (candidate : Payload) (from : string)
| PartnerLeft
| Disconnected.

#[global] Instance ClientMsg_eq_dec : EqDecision ClientMsg.
Proof. solve_decision. Defined.

#[global] Instance ServerMsg_eq_dec : EqDecision ServerMsg.
Proof. solve_decision. Defined.

(** JavaScript truthiness of a string: only the empty string is falsy. *)
Definition truthy (s : string) : bool :=
  match s with
  | EmptyString => false
  | String _ _ => true
  end.

End Protocol.

(** ** The signaling server *)

Module Server.
Import Protocol.

(** [clients], [waitingQueue], [activePairs].  A client entry
    [{ ws, userId }] is kept as the [readyState] of its socket, the only
    thing the server reads from it. *)
Record State := mkState {
  clients : gmap string ReadyState;
  waitingQueue : list string;
  activePairs : gmap string string
}.

(** What a handler wrote with [ws.send], in order: recipient and message. *)
Definition Sent := list (string * ServerMsg).

Definition init : State :=
  {| clients := ∅; waitingQueue := []; activePairs := ∅ |}.

Definition set_clients (c : gmap string ReadyState) (s : State) : State :=
  {| clients := c; waitingQueue := waitingQueue s; activePairs := activePairs s |}.
Definition set_waitingQueue (q : list string) (s : State) : State :=
  {| clients := clients s; waitingQueue := q; activePairs := activePairs s |}.
Definition set_activePairs (p : gmap string string) (s : State) : State :=
  {| clients := clients s; waitingQueue := waitingQueue s; activePairs := p |}.

(** [sendToClient]: writes only to a registered client whose socket is
    OPEN; anything else is dropped without a trace. *)
Definition sendToClient (clientId : string) (message : ServerMsg) (s : State) : Sent :=
  match clients s !! clientId with
  | Some OPEN => [(clientId, message)]
  | Some _ => []
  | None => []
  end.

(** [pairUsers]: both directions are installed, then both are notified. *)
Definition pairUsers (userId1 userId2 : string) (s : State) : State * Sent :=
  let s' := set_activePairs (<[userId2 := userId1]> (<[userId1 := userId2]> (activePairs s))) s in
  (s', sendToClient userId1 (Paired userId2) s' ++ sendToClient userId2 (Paired userId1) s').

(** [Array.prototype.indexOf]: index of the first occurrence, or -1. *)
Definition indexOf (l : list string) (x : string) : Z :=
  match list_find (λ y, y = x) l with
  | Some (i, _) => Z.of_nat i
  | None => (-1)%Z
  end.

(** [Array.prototype.includes]. *)
Definition includes (l : list string) (x : string) : bool :=
  bool_decide (x ∈ l).

(** [removeFromQueue]: [splice(index, 1)] at the first occurrence only. *)
Definition removeFromQueue (userId : string) (q : list string) : list string :=
  let index := indexOf q userId in
  if (index >? -1)%Z then delete (Z.to_nat index) q else q.

(** The unpairing block shared, verbatim, by the skip/disconnect case and
    by [handleDisconnect]: look the sender up, and if it has a (truthy)
    partner, notify the partner and delete both directions. *)
Definition unpair (userId : string) (s : State) : State * Sent :=
  match activePairs s !! userId with
  | Some partnerId =>
      if truthy partnerId then
        (set_activePairs (delete userId (delete partnerId (activePairs s))) s,
         sendToClient partnerId PartnerLeft s)
      else (s, [])
  | None => (s, [])
  end.

(** [handleDisconnect]: queue first, then the pair, then the client. *)
Definition handleDisconnect (userId : string) (s : State) : State * Sent :=
  let s1 := set_waitingQueue (removeFromQueue userId (waitingQueue s)) s in
  let '(s2, out) := unpair userId s1 in
  (set_clients (delete userId (clients s2)) s2, out).

(** The two [shift()]s behind the [length >= 2] test. *)
Definition dequeueTwo (q : list string) : option (string * string * list string) :=
  if bool_decide (2 ≤ length q) then
    match q with
    | user1 :: user2 :: rest => Some (user1, user2, rest)
    | _ => None
    end
  else None.

(** [case 'find-partner']. *)
Definition findPartner (userId : string) (s : State) : State * Sent :=
  if negb (includes (waitingQueue s) userId) then
    let s1 := set_waitingQueue (waitingQueue s ++ [userId]) s in
    match dequeueTwo (waitingQueue s1) with
    | Some (user1, user2, rest) => pairUsers user1 user2 (set_waitingQueue rest s1)
    | None => (s1, sendToClient userId Waiting s1)
    end
  else (s, []).

(** [case 'offer'], [case 'answer'], [case 'ice-candidate']: forward to
    the partner found in [activePairs], if any. *)
Definition relay (userId : string) (message : ServerMsg) (s : State) : State * Sent :=
  match activePairs s !! userId with
  | Some partnerId =>
      if truthy partnerId then (s, sendToClient partnerId message s) else (s, [])
  | None => (s, [])
  end.

(** [case 'skip': case 'disconnect':]. *)
Definition skip (userId : string) (s : State) : State * Sent :=
  let '(s1, out) := unpair userId s in
  let s2 := set_waitingQueue (removeFromQueue userId (waitingQueue s1)) s1 in
  (s2, out ++ sendToClient userId Disconnected s2).

(** The [switch (message.type)] of the [ws.on('message')] handler of the
    connection that was given [userId]. *)
Definition onMessage (userId : string) (message : ClientMsg) (s : State) : State * Sent :=
  match message with
  | FindPartner => findPartner userId s
  | Offer offer => relay userId (OfferFrom offer userId) s
  | Answer answer => relay userId (AnswerFrom answer userId) s
  | IceCandidate candidate => relay userId (IceCandidateFrom candidate userId) s
  | Skip | Disconnect => skip userId s
  | UnknownType _ => (s, [])
  end.

(** [wss.on('connection')]: [userId] is what [uuidv4()] returned.  The
    greeting is written with [ws.send] directly. *)
Definition onConnection (userId : string) (s : State) : State * Sent :=
  (set_clients (<[userId := OPEN]> (clients s)) s, [(userId, Connected userId)]).

(** Everything that can happen to the server.  [Garbage] is a frame that
    [JSON.parse] rejects (caught and logged); [SocketState] is the
    platform moving a registered socket to another [readyState]. *)
Inductive Event :=
| Connection (userId : string)
| Message (userId : string) (message : ClientMsg)
| Garbage (userId : string)
| Close (userId : string)
| SocketError (userId : string)
| SocketState (userId : string) (rs : ReadyState).

Definition step (s : State) (e : Event) : State * Sent :=
  match e with
  | Connection userId => onConnection userId s
  | Message userId message => onMessage userId message s
  | Garbage _ => (s, [])
  | Close userId => handleDisconnect userId s
  | SocketError userId => handleDisconnect userId s
  | SocketState userId rs =>
      match clients s !! userId with
      | Some _ => (set_clients (<[userId := rs]> (clients s)) s, [])
      | None => (s, [])
      end
  end.

Fixpoint run (s : State) (evs : list Event) : State * Sent :=
  match evs with
  | [] => (s, [])
  | e :: evs' =>
      let '(s1, out1) := step s e in
      let '(s2, out2) := run s1 evs' in
      (s2, out1 ++ out2)
  end.

(** States the server can be in: [init] followed by any events. *)
Inductive reachable : State → Prop :=
| reachable_init : reachable init
| reachable_step s e : reachable s → reachable (step s e).1.

Definition partnerOf (s : State) (userId : string) : option string :=
  activePairs s !! userId.

(** Nothing is left for [unpair] to undo for this id: it has no entry, or
    an entry the truthiness test skips. *)
Definition settled (userId : string) (s : State) : Prop :=
  match activePairs s !! userId with
  | Some partnerId => truthy partnerId = false
  | None => True
  end.

(** A client that asks for a partner only while it has none, which is
    what the page does: [skipPartner] sends skip first. *)
Definition polite (s : State) (e : Event) : bool :=
  match e with
  | Message userId FindPartner => bool_decide (activePairs s !! userId = None)
  | _ => true
  end.

Inductive reachable_polite : State → Prop :=
| reachable_polite_init : reachable_polite init
| reachable_polite_step s e :
    reachable_polite s → polite s e = true → reachable_polite (step s e).1.

(** The pair registry is symmetric and disjoint from the queue. *)
Definition coherent (s : State) : Prop :=
  (∀ a b, activePairs s !! a = Some b → activePairs s !! b = Some a) ∧
  (∀ a, a ∈ waitingQueue s → activePairs s !! a = None).

(** The frames addressed to one client, in the order written. *)
Definition inbox (userId : string) (out : Sent) : list ServerMsg :=
  (filter (λ m, m.1 = userId) out).*2.

(** *** Traces used below *)

(** A and B connect and are paired. *)
Definition pair_trace : list Event :=
  [Connection "A"; Connection "B";
   Message "A" FindPartner; Message "B" FindPartner].

(** ... then A, still paired with B, asks for a partner again. *)
Definition requeue_trace : list Event :=
  pair_trace ++ [Message "A" FindPartner].

(** ... and a third client C connects and asks for a partner. *)
Definition third_party_trace : list Event :=
  requeue_trace ++ [Connection "C"; Message "C" FindPartner].

(** Three clients connect, then ask for a partner in turn. *)
Definition three_trace : list Event :=
  [Connection "P1"; Connection "P2"; Connection "P3"].

(** Whether every event of a run is polite in the state it meets. *)
Fixpoint all_polite (s : State) (evs : list Event) : bool :=
  match evs with
  | [] => true
  | e :: evs' => polite s e && all_polite (step s e).1 evs'
  end.

(** *** The health endpoint *)

(** The body of [GET /health] without the constant [status]: two sizes
    and [activePairs.size / 2], a JavaScript number division, exact on
    halves. *)
Record Health := mkHealth {
  health_clients : nat;
  health_waiting : nat;
  health_activePairs : QArith_base.Q
}.

Definition health (s : State) : Health :=
  {| health_clients := size (clients s);
     health_waiting := length (waitingQueue s);
     health_activePairs := QArith_base.Qmake (Z.of_nat (size (activePairs s))) 2 |}.

End Server.

(** ** The browser client *)

Module Client.
Import Protocol.

(** *** The browser platform

    [RTCPeerConnection] and [WebSocket] are supplied by the browser, not
    by the repository.  A peer connection is reduced to what the client
    code depends on: the two descriptions and the remote candidates the
    browser accepted, in the order it accepted them. *)
Record RTCPeerConnection := mkPC {
  localDescription : option string;
  remoteDescription : option string;
  appliedCandidates : list string
}.

(** The asynchronous [RTCPeerConnection] methods the client awaits.
    [None] is a rejected promise (or a throwing constructor such as
    [new RTCSessionDescription(null)]). *)
Record Platform := mkPlatform {
  pc_createOffer : RTCPeerConnection → option string;
  pc_createAnswer : RTCPeerConnection → option string;
  pc_setLocalDescription : string → RTCPeerConnection → option RTCPeerConnection;
  pc_setRemoteDescription : Payload → RTCPeerConnection → option RTCPeerConnection;
  pc_addIceCandidate : string → RTCPeerConnection → option RTCPeerConnection
}.

(** A browser that follows the W3C WebRTC recommendation where the client
    can observe it: an answer needs a remote offer, and
    [addIceCandidate] rejects with [InvalidStateError] while
    [remoteDescription] is null.  The two blobs are what [createOffer]
    and [createAnswer] resolve to. *)
Definition w3c (offerSdp answerSdp : string) : Platform :=
  {| pc_createOffer := λ _, Some offerSdp;
     pc_createAnswer := λ pc,
       match remoteDescription pc with Some _ => Some answerSdp | None => None end;
     pc_setLocalDescription := λ d pc,
       Some (mkPC (Some d) (remoteDescription pc) (appliedCandidates pc));
     pc_setRemoteDescription := λ d pc,
       match d with
       | Some sdp => Some (mkPC (localDescription pc) (Some sdp) (appliedCandidates pc))
       | None => None
       end;
     pc_addIceCandidate := λ c pc,
       match remoteDescription pc with
       | Some _ => Some (mkPC (localDescription pc) (remoteDescription pc)
                              (appliedCandidates pc ++ [c]))
       | None => None
       end |}.

(** The sockets the page has created (a handle is an index; the entry is
    the socket's [readyState]), the delays of the [setTimeout] callbacks
    not yet run (each one calls [connect()]), and the frames written with
    [ws.send], in order. *)
Record Browser := mkBrowser {
  sockets : list ReadyState;
  timers : list Z;
  wire : list (nat * ClientMsg)
}.

(** *** The three objects of the page *)

(** [WebRTCService]: [peerConnection] (null or an object), whether a
    [localStream] is held, and whether [onIceCandidate], [onRemoteStream]
    and [onConnectionStateChange] are set: [setupWebRTCCallbacks] sets the
    three together when the page is mounted, [cleanup()] nulls the three
    together, and nothing else writes them. *)
Record WebRTCService := mkWebRTC {
  peerConnection : option RTCPeerConnection;
  localStream : bool;
  callbacks : bool
}.

(** [SignalingService]; [ws] is null or a socket handle.  The callbacks
    are the ones [setupSignalingCallbacks] installs. *)
Record SignalingService := mkSignaling {
  ws : option nat;
  userId : option string;
  partnerId : option string;
  reconnectAttempts : nat;
  maxReconnectAttempts : nat
}.

(** The values [status] takes in [App.jsx]. *)
Inductive Status :=
| StDisconnected | StInitializing | StConnected | StWaiting | StPaired
| StConnecting | StConnectedToPeer | StPartnerLeft | StConnectionFailed
| StError.

(** The [useState] cells of [App] the handlers write. *)
Record App := mkApp {
  status : Status;
  isInitiator : bool;
  error : option string
}.

Record Client := mkClient {
  app : App;
  webrtc : WebRTCService;
  signaling : SignalingService;
  browser : Browser
}.

(** [new WebRTCService()], [new SignalingService(url)] and the initial
    [useState] values. *)
Definition init : Client :=
  {| app := mkApp StDisconnected false None;
     webrtc := mkWebRTC None false true;
     signaling := mkSignaling None None None 0 5;
     browser := mkBrowser [] [] [] |}.

Definition set_app (a : App) (c : Client) : Client :=
  mkClient a (webrtc c) (signaling c) (browser c).
Definition set_webrtc (w : WebRTCService) (c : Client) : Client :=
  mkClient (app c) w (signaling c) (browser c).
Definition set_signaling (g : SignalingService) (c : Client) : Client :=
  mkClient (app c) (webrtc c) g (browser c).
Definition set_browser (b : Browser) (c : Client) : Client :=
  mkClient (app c) (webrtc c) (signaling c) b.

Definition setStatus (st : Status) (c : Client) : Client :=
  set_app (mkApp st (isInitiator (app c)) (error (app c))) c.
Definition setIsInitiator (b : bool) (c : Client) : Client :=
  set_app (mkApp (status (app c)) b (error (app c))) c.
Definition setError (e : option string) (c : Client) : Client :=
  set_app (mkApp (status (app c)) (isInitiator (app c)) e) c.
Definition set_partnerId (p : option string) (c : Client) : Client :=
  let g := signaling c in
  set_signaling (mkSignaling (ws g) (userId g) p (reconnectAttempts g) (maxReconnectAttempts g)) c.
Definition set_userId (u : option string) (c : Client) : Client :=
  let g := signaling c in
  set_signaling (mkSignaling (ws g) u (partnerId g) (reconnectAttempts g) (maxReconnectAttempts g)) c.
Definition set_reconnectAttempts (n : nat) (c : Client) : Client :=
  let g := signaling c in
  set_signaling (mkSignaling (ws g) (userId g) (partnerId g) n (maxReconnectAttempts g)) c.
Definition set_peerConnection (pc : option RTCPeerConnection) (c : Client) : Client :=
  set_webrtc (mkWebRTC pc (localStream (webrtc c)) (callbacks (webrtc c))) c.

(** *** SignalingService *)

(** [send]: writes the frame and returns true only when [ws] is set and
    OPEN; otherwise logs and returns false. *)
Definition send (message : ClientMsg) (c : Client) : Client * bool :=
  match ws (signaling c) with
  | Some h =>
      match sockets (browser c) !! h with
      | Some OPEN =>
          let b := browser c in
          (set_browser (mkBrowser (sockets b) (timers b) (wire b ++ [(h, message)])) c, true)
      | _ => (c, false)
      end
  | None => (c, false)
  end.

Definition findPartner (c : Client) : Client := (send FindPartner c).1.
Definition sendOffer (offer : string) (c : Client) : Client := (send (Offer (Some offer)) c).1.
Definition sendAnswer (answer : string) (c : Client) : Client := (send (Answer (Some answer)) c).1.
Definition sendIceCandidate (candidate : string) (c : Client) : Client :=
  (send (IceCandidate (Some candidate)) c).1.

(** [skip] and [disconnect]: the result of [send] is not looked at. *)
Definition skip (c : Client) : Client := set_partnerId None (send Skip c).1.
Definition disconnect (c : Client) : Client := set_partnerId None (send Disconnect c).1.

(** [Math.min(1000 * Math.pow(2, n), 30000)]; exact on integers. *)
Definition reconnectDelay (n : nat) : Z := Z.min (1000 * 2 ^ Z.of_nat n) 30000.

(** [attemptReconnect]: counts the attempt, then schedules [connect()]. *)
Definition attemptReconnect (c : Client) : Client :=
  if reconnectAttempts (signaling c) <? maxReconnectAttempts (signaling c) then
    let c1 := set_reconnectAttempts (S (reconnectAttempts (signaling c))) c in
    let delay := reconnectDelay (reconnectAttempts (signaling c1)) in
    let b := browser c1 in
    set_browser (mkBrowser (sockets b) (timers b ++ [delay]) (wire b)) c1
  else c.

(** [connect]: [new WebSocket(url)] starts in CONNECTING and becomes
    [this.ws]; the four handlers are the socket events below. *)
Definition connect (c : Client) : Client :=
  let b := browser c in
  let h := length (sockets b) in
  let g := signaling c in
  set_signaling (mkSignaling (Some h) (userId g) (partnerId g)
                             (reconnectAttempts g) (maxReconnectAttempts g))
    (set_browser (mkBrowser (sockets b ++ [CONNECTING]) (timers b) (wire b)) c).

(** [WebSocket.close()] as the browser performs it: a socket that is
    CONNECTING or OPEN starts closing, the close event follows later. *)
Definition ws_close (rs : ReadyState) : ReadyState :=
  match rs with
  | CONNECTING | OPEN => CLOSING
  | CLOSING => CLOSING
  | CLOSED => CLOSED
  end.

(** [close]: [ws.close()], then the three fields are cleared.  The
    handlers stay on the socket object. *)
Definition close (c : Client) : Client :=
  match ws (signaling c) with
  | Some h =>
      let b := browser c in
      let g := signaling c in
      set_signaling (mkSignaling None None None (reconnectAttempts g) (maxReconnectAttempts g))
        (set_browser (mkBrowser (alter ws_close h (sockets b)) (timers b) (wire b)) c)
  | None => c
  end.

(** *** WebRTCService *)

Definition createPeerConnection (w : WebRTCService) : WebRTCService :=
  mkWebRTC (Some (mkPC None None [])) (localStream w) (callbacks w).

Definition ensurePeerConnection (w : WebRTCService) : WebRTCService * RTCPeerConnection :=
  match peerConnection w with
  | Some pc => (w, pc)
  | None => (createPeerConnection w, mkPC None None [])
  end.

Definition closePeerConnection (w : WebRTCService) : WebRTCService :=
  match peerConnection w with
  | Some _ => mkWebRTC None (localStream w) (callbacks w)
  | None => w
  end.

Definition stopLocalStream (w : WebRTCService) : WebRTCService :=
  mkWebRTC (peerConnection w) false (callbacks w).

(** [cleanup()] of [WebRTCService]: connection, stream, then the three
    callbacks are nulled. *)
Definition cleanupWebRTC (w : WebRTCService) : WebRTCService :=
  let w1 := stopLocalStream (closePeerConnection w) in
  mkWebRTC (peerConnection w1) (localStream w1) false.

Section WithPlatform.
Variable P : Platform.

(** [createOffer]: the second component is the offer, or [None] when
    the method throws. *)
Definition createOffer (w : WebRTCService) : WebRTCService * option string :=
  let '(w1, pc) := ensurePeerConnection w in
  match pc_createOffer P pc with
  | Some offer =>
      match pc_setLocalDescription P offer pc with
      | Some pc' => (mkWebRTC (Some pc') (localStream w1) (callbacks w1), Some offer)
      | None => (w1, None)
      end
  | None => (w1, None)
  end.

(** [createAnswer(offer)]. *)
Definition createAnswer (offer : Payload) (w : WebRTCService) : WebRTCService * option string :=
  let '(w1, pc) := ensurePeerConnection w in
  match pc_setRemoteDescription P offer pc with
  | Some pc1 =>
      let w2 := mkWebRTC (Some pc1) (localStream w1) (callbacks w1) in
      match pc_createAnswer P pc1 with
      | Some answer =>
          match pc_setLocalDescription P answer pc1 with
          | Some pc2 => (mkWebRTC (Some pc2) (localStream w1) (callbacks w1), Some answer)
          | None => (w2, None)
          end
      | None => (w2, None)
      end
  | None => (w1, None)
  end.

(** [handleAnswer(answer)]: with no peer connection the member access
    throws, like a rejected [setRemoteDescription]; the caller logs it. *)
Definition handleAnswer (answer : Payload) (w : WebRTCService) : WebRTCService :=
  match peerConnection w with
  | Some pc =>
      match pc_setRemoteDescription P answer pc with
      | Some pc' => mkWebRTC (Some pc') (localStream w) (callbacks w)
      | None => w
      end
  | None => w
  end.

(** [addIceCandidate(candidate)]: only with a peer connection and a
    truthy candidate; a rejection is caught and logged. *)
Definition addIceCandidate (candidate : Payload) (w : WebRTCService) : WebRTCService :=
  match peerConnection w, candidate with
  | Some pc, Some cand =>
      match pc_addIceCandidate P cand pc with
      | Some pc' => mkWebRTC (Some pc') (localStream w) (callbacks w)
      | None => w
      end
  | _, _ => w
  end.

(** *** The callbacks of [App.jsx]

    Each asynchronous callback is taken to run to completion before the
    next event is delivered. *)

Definition onConnected (c : Client) : Client :=
  setError None (setStatus StConnected c).

Definition onWaiting (c : Client) : Client := setStatus StWaiting c.

Definition onPaired (c : Client) : Client :=
  let c1 := setIsInitiator true (setStatus StPaired c) in
  let '(w, r) := createOffer (webrtc c1) in
  let c2 := set_webrtc w c1 in
  match r with
  | Some offer => setStatus StConnecting (sendOffer offer c2)
  | None => setError (Some "Failed to create connection") c2
  end.

Definition onOffer (offer : Payload) (c : Client) : Client :=
  let c1 := setStatus StConnecting (setIsInitiator false c) in
  let '(w, r) := createAnswer offer (webrtc c1) in
  let c2 := set_webrtc w c1 in
  match r with
  | Some answer => sendAnswer answer c2
  | None => setError (Some "Failed to establish connection") c2
  end.

Definition onAnswer (answer : Payload) (c : Client) : Client :=
  set_webrtc (handleAnswer answer (webrtc c)) c.

Definition onIceCandidate (candidate : Payload) (c : Client) : Client :=
  set_webrtc (addIceCandidate candidate (webrtc c)) c.

(** [handleDisconnect] of [App.jsx]. *)
Definition handleDisconnect (c : Client) : Client :=
  set_webrtc (closePeerConnection (webrtc c)) c.

Definition onPartnerLeft (c : Client) : Client :=
  handleDisconnect (setStatus StPartnerLeft c).

Definition onDisconnected (c : Client) : Client := setStatus StDisconnected c.

Definition onError (c : Client) : Client := setError (Some "Connection error") c.

(** [SignalingService.handleMessage] on a parsed frame. *)
Definition handleMessage (message : ServerMsg) (c : Client) : Client :=
  match message with
  | Connected uid => onConnected (set_userId (Some uid) c)
  | Waiting => onWaiting c
  | Paired p => onPaired (set_partnerId (Some p) c)
  | OfferFrom offer _ => onOffer offer c
  | AnswerFrom answer _ => onAnswer answer c
  | IceCandidateFrom candidate _ => onIceCandidate candidate c
  | PartnerLeft => onPartnerLeft (set_partnerId None c)
  | Disconnected => onDisconnected (set_partnerId None c)
  end.

(** What [getUserMedia] did in [initLocalStream]. *)
Inductive MediaResult := Granted | NotAllowedError | NotFoundError | OtherError.

Definition set_localStream (b : bool) (c : Client) : Client :=
  set_webrtc (mkWebRTC (peerConnection (webrtc c)) b (callbacks (webrtc c))) c.

(** [startChat].  [connect()] resolves as soon as the socket object
    exists, so [findPartner()] runs while it is still CONNECTING. *)
Definition startChat (media : MediaResult) (c : Client) : Client :=
  let c1 := setStatus StInitializing (setError None c) in
  match media with
  | Granted => findPartner (connect (set_localStream true c1))
  | NotAllowedError =>
      setStatus StError
        (setError (Some "Camera/microphone access denied. Please allow access and try again.") c1)
  | NotFoundError =>
      setStatus StError (setError (Some "No camera or microphone found.") c1)
  | OtherError =>
      setStatus StError
        (setError (Some "Failed to start chat. Please check your camera and microphone.") c1)
  end.

(** [skipPartner], [cleanup] and [stopChat]. *)
Definition skipPartner (c : Client) : Client :=
  findPartner (setStatus StWaiting (skip (handleDisconnect c))).

Definition cleanup (c : Client) : Client :=
  close (set_webrtc (cleanupWebRTC (webrtc c)) c).

Definition stopChat (c : Client) : Client := setStatus StDisconnected (cleanup c).

(** *** Events delivered to the page *)

Definition set_socket (h : nat) (rs : ReadyState) (c : Client) : Client :=
  let b := browser c in
  set_browser (mkBrowser (<[h := rs]> (sockets b)) (timers b) (wire b)) c.

(** [ws.onopen], [ws.onmessage], [ws.onerror], [ws.onclose] of a socket
    made by [connect], the expiry of the [i]-th pending timer of
    [attemptReconnect] (timers can expire in any order), the
    [onicecandidate] of the current peer connection with a candidate
    (forwarded only while [onIceCandidate] is set), and the three
    buttons.  A frame that [JSON.parse] rejects is [None]. *)
Inductive Event :=
| SocketOpen (h : nat)
| SocketMessage (h : nat) (data : option ServerMsg)
| SocketError (h : nat)
| SocketClose (h : nat)
| TimerFired (i : nat)
| LocalIceCandidate (candidate : string)
| ClickStart (media : MediaResult)
| ClickSkip
| ClickStop.

Definition ws_onopen (h : nat) (c : Client) : Client :=
  set_reconnectAttempts 0 (set_socket h OPEN c).

Definition ws_onclose (h : nat) (c : Client) : Client :=
  attemptReconnect (onDisconnected (set_socket h CLOSED c)).

Definition timerFired (i : nat) (c : Client) : Client :=
  match timers (browser c) !! i with
  | Some _ =>
      let b := browser c in
      connect (set_browser (mkBrowser (sockets b) (delete i (timers b)) (wire b)) c)
  | None => c
  end.

Definition step (c : Client) (e : Event) : Client :=
  match e with
  | SocketOpen h => ws_onopen h c
  | SocketMessage _ (Some message) => handleMessage message c
  | SocketMessage _ None => c
  | SocketError _ => onError c
  | SocketClose h => ws_onclose h c
  | TimerFired i => timerFired i c
  | LocalIceCandidate candidate =>
      match peerConnection (webrtc c) with
      | Some _ =>
          if callbacks (webrtc c) then sendIceCandidate candidate c else c
      | None => c
      end
  | ClickStart media => startChat media c
  | ClickSkip => skipPartner c
  | ClickStop => stopChat c
  end.

Definition run (c : Client) (evs : list Event) : Client := foldl step c evs.

(** The delays of the timers that expire during a run, in the order
    they expire: each one is a [connect()] call made by
    [attemptReconnect]. *)
Definition firedBy (c : Client) (e : Event) : list Z :=
  match e with
  | TimerFired i =>
      match timers (browser c) !! i with
      | Some delay => [delay]
      | None => []
      end
  | _ => []
  end.

Fixpoint firedDelays (c : Client) (evs : list Event) : list Z :=
  match evs with
  | [] => []
  | e :: evs' => firedBy c e ++ firedDelays (step c e) evs'
  end.

(** Frames from the server handed to [handleMessage] one after another. *)
Definition deliver (frames : list ServerMsg) (c : Client) : Client :=
  foldl (λ c message, handleMessage message c) c frames.

(** A burst of relayed ice-candidate frames from [from]. *)
Definition receiveCandidates (from : string) (candidates : list Payload) (c : Client) : Client :=
  deliver ((λ candidate, IceCandidateFrom candidate from) <$> candidates) c.

End WithPlatform.

(** No socket opens during these events. *)
Definition no_open (evs : list Event) : bool :=
  forallb (λ e, match e with SocketOpen _ => false | _ => true end) evs.

(** The Start presses of a run that got a media stream: each one calls
    [connect()]. *)
Fixpoint starts (evs : list Event) : nat :=
  match evs with
  | [] => 0
  | ClickStart Granted :: evs' => S (starts evs')
  | _ :: evs' => starts evs'
  end.

(** A signaling outage met with the socket [h] as current one and [n]
    sockets made so far: the current socket closes, the timer fires, the
    socket it made closes, and so on, [k] times. *)
Fixpoint outage (h n k : nat) : list Event :=
  match k with
  | 0 => []
  | S k' => SocketClose h :: TimerFired 0 :: outage n (S n) k'
  end.

(** What reconnection and sending depend on: the current socket, the
    attempt counter and its bound, the sockets and the pending timers. *)
Definition netState (c : Client) : option nat * nat * nat * list ReadyState * list Z :=
  (ws (signaling c), reconnectAttempts (signaling c),
   maxReconnectAttempts (signaling c), sockets (browser c), timers (browser c)).

(** [isConnected] and [isPaired]. *)
Definition isConnected (c : Client) : bool :=
  match ws (signaling c) with
  | Some h => bool_decide (sockets (browser c) !! h = Some OPEN)
  | None => false
  end.

Definition isPaired (c : Client) : bool :=
  bool_decide (partnerId (signaling c) ≠ None).

(** The remote candidates the browser has applied so far. *)
Definition applied (c : Client) : list string :=
  match peerConnection (webrtc c) with
  | Some pc => appliedCandidates pc
  | None => []
  end.

(** Whether the peer connection has a remote description. *)
Definition hasRemoteDescription (c : Client) : bool :=
  match peerConnection (webrtc c) with
  | Some pc => bool_decide (is_Some (remoteDescription pc))
  | None => false
  end.

(** *** Muting

    [toggleVideo] and [toggleAudio] act on the tracks of the local
    stream; a track is its [enabled] flag, and the stream lists its video
    and its audio tracks.  The first component of the result is
    [this.localStream] afterwards, the second what the method returns. *)
Record MediaStream := mkStream {
  videoTracks : list bool;
  audioTracks : list bool
}.

Definition toggleVideo (stream : option MediaStream) : option MediaStream * bool :=
  match stream with
  | Some st =>
      match videoTracks st with
      | videoTrack :: others =>
          (Some (mkStream (negb videoTrack :: others) (audioTracks st)), negb videoTrack)
      | [] => (stream, false)
      end
  | None => (stream, false)
  end.

Definition toggleAudio (stream : option MediaStream) : option MediaStream * bool :=
  match stream with
  | Some st =>
      match audioTracks st with
      | audioTrack :: others =>
          (Some (mkStream (videoTracks st) (negb audioTrack :: others)), negb audioTrack)
      | [] => (stream, false)
      end
  | None => (stream, false)
  end.

(** *** Two properties a buffering, cancelling client would have *)

(** Candidates that arrive before the remote description are all
    applied, in order, by the time the answer has been taken in. *)
Definition buffered_until_remote (P : Platform) (c : Client) (from : string)
    (candidates : list string) (answer : string) : Prop :=
  hasRemoteDescription c = false →
  let c' := handleMessage P (AnswerFrom (Some answer) from)
              (receiveCandidates P from (Some <$> candidates) c) in
  hasRemoteDescription c' = true →
  applied c' = applied c ++ candidates.

(** The close event of the socket that [close()] closed schedules no
    reconnection. *)
Definition no_reconnect_after_close (c : Client) (h : nat) : Prop :=
  ws (signaling c) = Some h →
  timers (browser (ws_onclose h (close c))) = timers (browser (close c)).

(** *** States used below *)

(** A page whose user pressed Start and whose socket has opened. *)
Definition online : Client := ws_onopen 0 (startChat Granted init).

(** The same page once it has asked for a partner; the frames the server
    wrote to it are still to be read. *)
Definition searching : Client := findPartner online.

End Client.

(** ** Facts about the signaling server *)

Module ServerFacts.
Import Protocol Server.

(** *** The waiting queue *)

Lemma removeFromQueue_cons userId x q :
  removeFromQueue userId (x :: q) =
  if decide (x = userId) then q else x :: removeFromQueue userId q.
Proof.
  unfold removeFromQueue, indexOf. cbn [list_find].
  destruct (decide (x = userId)) as [->|Hne]; [reflexivity|].
  destruct (list_find _ q) as [[i y]|]; cbn; [|reflexivity].
  replace (Z.of_nat (S i) >? -1)%Z with true by (symmetry; apply Z.gtb_lt; lia).
  replace (Z.of_nat i >? -1)%Z with true by (symmetry; apply Z.gtb_lt; lia).
  by rewrite !Nat2Z.id.
Qed.

Lemma removeFromQueue_absent userId q :
  userId ∉ q → removeFromQueue userId q = q.
Proof.
  induction q as [|x q IH]; intros Hq; [reflexivity|].
  rewrite removeFromQueue_cons.
  apply not_elem_of_cons in Hq as [Hne Hq].
  destruct (decide (x = userId)); [congruence|]. by rewrite IH.
Qed.

Lemma removeFromQueue_elem_of userId y q :
  y ∈ removeFromQueue userId q → y ∈ q.
Proof.
  induction q as [|x q IH]; [done|].
  rewrite removeFromQueue_cons.
  destruct (decide (x = userId)); rewrite !elem_of_cons; [by right|].
  intros [->|Hy]; [by left|right; by apply IH].
Qed.

Lemma removeFromQueue_length userId q :
  length (removeFromQueue userId q) ≤ length q.
Proof.
  induction q as [|x q IH]; [done|].
  rewrite removeFromQueue_cons. destruct (decide (x = userId)); simpl; lia.
Qed.

Lemma removeFromQueue_NoDup userId q :
  NoDup q → userId ∉ removeFromQueue userId q.
Proof.
  induction 1 as [|x q Hx Hq IH]; [apply not_elem_of_nil|].
  rewrite removeFromQueue_cons.
  destruct (decide (x = userId)) as [->|Hne]; [done|].
  apply not_elem_of_cons; split; [congruence|done].
Qed.

Lemma removeFromQueue_idem userId q :
  NoDup q →
  removeFromQueue userId (removeFromQueue userId q) = removeFromQueue userId q.
Proof. intros Hq. by apply removeFromQueue_absent, removeFromQueue_NoDup. Qed.

Lemma includes_false q userId : includes q userId = false ↔ userId ∉ q.
Proof. unfold includes. apply bool_decide_eq_false. Qed.

Lemma dequeueTwo_short q : length q < 2 → dequeueTwo q = None.
Proof.
  intros Hq. unfold dequeueTwo. rewrite bool_decide_eq_false_2; [done|lia].
Qed.

Lemma dequeueTwo_oldest user1 user2 rest :
  dequeueTwo (user1 :: user2 :: rest) = Some (user1, user2, rest).
Proof. unfold dequeueTwo. rewrite bool_decide_eq_true_2; [done|simpl; lia]. Qed.

(** *** One find-partner, by the shape of the queue *)

Lemma findPartner_queued userId s :
  userId ∈ waitingQueue s → findPartner userId s = (s, []).
Proof.
  intros Hin. unfold findPartner.
  replace (includes (waitingQueue s) userId) with true; [done|].
  symmetry. by apply bool_decide_eq_true.
Qed.

Lemma findPartner_first userId s :
  waitingQueue s = [] →
  findPartner userId s =
    (set_waitingQueue [userId] s, sendToClient userId Waiting (set_waitingQueue [userId] s)).
Proof.
  intros Hq. unfold findPartner. rewrite Hq. reflexivity.
Qed.

Lemma findPartner_second userId oldest rest s :
  waitingQueue s = oldest :: rest → userId ∉ oldest :: rest →
  findPartner userId s =
    match rest ++ [userId] with
    | user2 :: rest' => pairUsers oldest user2 (set_waitingQueue rest' (set_waitingQueue (oldest :: rest ++ [userId]) s))
    | [] => (s, [])
    end.
Proof.
  intros Hq Hnin. unfold findPartner. rewrite Hq.
  apply includes_false in Hnin. rewrite Hnin. cbn [negb].
  cbn [set_waitingQueue waitingQueue app].
  destruct (rest ++ [userId]) as [|user2 rest'] eqn:Hr.
  - by destruct rest.
  - by rewrite dequeueTwo_oldest.
Qed.

(** *** What each handler does to the three stores *)

Lemma relay_state userId message s : (relay userId message s).1 = s.
Proof.
  unfold relay. destruct (activePairs s !! userId) as [p|]; [|done].
  by destruct (truthy p).
Qed.

Lemma unpair_queue userId s :
  waitingQueue (unpair userId s).1 = waitingQueue s.
Proof.
  unfold unpair. destruct (activePairs s !! userId) as [p|]; [|done].
  by destruct (truthy p).
Qed.

Lemma unpair_clients userId s : clients (unpair userId s).1 = clients s.
Proof.
  unfold unpair. destruct (activePairs s !! userId) as [p|]; [|done].
  by destruct (truthy p).
Qed.

Lemma unpair_lookup_Some userId s a b :
  activePairs (unpair userId s).1 !! a = Some b → activePairs s !! a = Some b.
Proof.
  unfold unpair. destruct (activePairs s !! userId) as [p|]; [|done].
  destruct (truthy p); [|done]. cbn.
  intros H. apply lookup_delete_Some in H as [_ H].
  by apply lookup_delete_Some in H as [_ H].
Qed.

Lemma unpair_again userId s :
  unpair userId (unpair userId s).1 = ((unpair userId s).1, []).
Proof.
  destruct (activePairs s !! userId) as [p|] eqn:Hp;
    [destruct (truthy p) eqn:Ht|].
  - assert (unpair userId s =
            (set_activePairs (delete userId (delete p (activePairs s))) s,
             sendToClient p PartnerLeft s)) as ->
      by (unfold unpair; by rewrite Hp, Ht).
    cbn [fst]. unfold unpair. cbn [activePairs set_activePairs].
    by rewrite lookup_delete_eq.
  - assert (unpair userId s = (s, [])) as ->
      by (unfold unpair; by rewrite Hp, Ht).
    cbn [fst]. unfold unpair. by rewrite Hp, Ht.
  - assert (unpair userId s = (s, [])) as ->
      by (unfold unpair; by rewrite Hp).
    cbn [fst]. unfold unpair. by rewrite Hp.
Qed.

Lemma skip_queue userId s :
  waitingQueue (skip userId s).1 = removeFromQueue userId (waitingQueue s).
Proof.
  unfold skip. destruct (unpair userId s) as [s1 out] eqn:Hu. cbn.
  by rewrite <- (unpair_queue userId s), Hu.
Qed.

Lemma skip_pairs userId s :
  activePairs (skip userId s).1 = activePairs (unpair userId s).1.
Proof. unfold skip. by destruct (unpair userId s). Qed.

Lemma skip_clients userId s : clients (skip userId s).1 = clients s.
Proof.
  unfold skip. destruct (unpair userId s) as [s1 out] eqn:Hu. cbn.
  by rewrite <- (unpair_clients userId s), Hu.
Qed.

Lemma handleDisconnect_queue userId s :
  waitingQueue (handleDisconnect userId s).1 = removeFromQueue userId (waitingQueue s).
Proof.
  unfold handleDisconnect.
  destruct (unpair userId (set_waitingQueue _ s)) as [s2 out] eqn:Hu. cbn.
  change s2 with (s2, out).1. by rewrite <- Hu, unpair_queue.
Qed.

Lemma handleDisconnect_lookup_Some userId s a b :
  activePairs (handleDisconnect userId s).1 !! a = Some b →
  activePairs s !! a = Some b.
Proof.
  unfold handleDisconnect.
  destruct (unpair userId (set_waitingQueue _ s)) as [s2 out] eqn:Hu. cbn.
  change s2 with (s2, out).1. rewrite <- Hu. intros H.
  by apply unpair_lookup_Some in H.
Qed.

Lemma state_eq s1 s2 :
  clients s1 = clients s2 → waitingQueue s1 = waitingQueue s2 →
  activePairs s1 = activePairs s2 → s1 = s2.
Proof. destruct s1, s2; cbn; by intros -> -> ->. Qed.

(** *** Invariants of every reachable state *)

(** Pairing fires as soon as two ids wait, so at most one id waits. *)
Lemma queue_short s : reachable s → length (waitingQueue s) ≤ 1.
Proof.
  induction 1 as [|s e Hs IH]; [simpl; lia|].
  destruct e as [u|u m|u|u|u|u rs]; cbn [step]; try done.
  - destruct m; cbn [onMessage]; rewrite ?relay_state, ?skip_queue; try done.
    + destruct (waitingQueue s) as [|x [|y q]] eqn:Hq; [| |simpl in IH; lia].
      * rewrite findPartner_first by done. simpl. lia.
      * destruct (decide (u = x)) as [->|Hne].
        -- rewrite findPartner_queued; [simpl; rewrite Hq; simpl; lia|].
           rewrite Hq. apply list_elem_of_here.
        -- rewrite (findPartner_second u x []); [simpl; lia|done|].
           apply not_elem_of_cons; split; [done|apply not_elem_of_nil].
    + etrans; [apply removeFromQueue_length|done].
    + etrans; [apply removeFromQueue_length|done].
  - rewrite handleDisconnect_queue. etrans; [apply removeFromQueue_length|done].
  - rewrite handleDisconnect_queue. etrans; [apply removeFromQueue_length|done].
  - destruct (clients s !! u); done.
Qed.

Lemma queue_NoDup s : reachable s → NoDup (waitingQueue s).
Proof.
  intros Hs. apply queue_short in Hs.
  destruct (waitingQueue s) as [|x [|y q]]; [constructor| |simpl in Hs; lia].
  apply NoDup_singleton.
Qed.


(** Nobody is ever registered as their own partner. *)
Lemma no_self_pair s : reachable s → ∀ a, activePairs s !! a ≠ Some a.
Proof.
  induction 1 as [|s e Hs IH]; intros a; [done|].
  pose proof (queue_short s Hs) as Hlen.
  destruct e as [u|u m|u|u|u|u rs]; cbn [step]; try apply IH.
  - destruct m; cbn [onMessage]; rewrite ?relay_state; try apply IH.
    + destruct (waitingQueue s) as [|x [|y q]] eqn:Hq; [| |simpl in Hlen; lia].
      * rewrite findPartner_first by done. apply IH.
      * destruct (decide (u = x)) as [->|Hne].
        -- rewrite findPartner_queued; [apply IH|].
           rewrite Hq. apply list_elem_of_here.
        -- rewrite (findPartner_second u x []); [|done|].
           2:{ apply not_elem_of_cons; split; [done|apply not_elem_of_nil]. }
           cbn. intros Ha.
           apply lookup_insert_Some in Ha as [[-> ->]|[Hua Ha]]; [done|].
           apply lookup_insert_Some in Ha as [[-> ->]|[Hxa Ha]]; [done|].
           by apply (IH a).
    + rewrite skip_pairs. intros Ha. by apply unpair_lookup_Some, IH in Ha.
    + rewrite skip_pairs. intros Ha. by apply unpair_lookup_Some, IH in Ha.
  - intros Ha. by apply handleDisconnect_lookup_Some, IH in Ha.
  - intros Ha. by apply handleDisconnect_lookup_Some, IH in Ha.
  - destruct (clients s !! u); apply IH.
Qed.

(** *** Unpairing twice *)

Lemma unpair_settled userId s : settled userId (unpair userId s).1.
Proof.
  unfold unpair, settled.
  destruct (activePairs s !! userId) as [p|] eqn:Hp; [|cbn; by rewrite Hp].
  destruct (truthy p) eqn:Ht; cbn; [by rewrite lookup_delete_eq|].
  by rewrite Hp.
Qed.

Lemma unpair_of_settled userId s : settled userId s → unpair userId s = (s, []).
Proof.
  unfold unpair, settled.
  destruct (activePairs s !! userId) as [p|]; [|done]. by intros ->.
Qed.

Lemma set_waitingQueue_same q s : waitingQueue s = q → set_waitingQueue q s = s.
Proof. intros <-. by destruct s. Qed.

Lemma set_clients_same c s : clients s = c → set_clients c s = s.
Proof. intros <-. by destruct s. Qed.

Lemma skip_again userId s :
  NoDup (waitingQueue s) →
  skip userId (skip userId s).1 =
    ((skip userId s).1, sendToClient userId Disconnected (skip userId s).1).
Proof.
  intros Hq. set (s1 := (skip userId s).1).
  assert (settled userId s1) as Hs1.
  { unfold settled, s1. rewrite skip_pairs. apply unpair_settled. }
  assert (userId ∉ waitingQueue s1) as Hq1.
  { unfold s1. rewrite skip_queue. by apply removeFromQueue_NoDup. }
  unfold skip. rewrite (unpair_of_settled _ _ Hs1).
  rewrite removeFromQueue_absent by done.
  by rewrite set_waitingQueue_same.
Qed.

Lemma handleDisconnect_pairs userId s :
  activePairs (handleDisconnect userId s).1 = activePairs (unpair userId s).1.
Proof.
  unfold handleDisconnect, unpair. cbn [activePairs set_waitingQueue].
  destruct (activePairs s !! userId) as [p|]; [|done]. by destruct (truthy p).
Qed.

Lemma handleDisconnect_clients userId s :
  clients (handleDisconnect userId s).1 = delete userId (clients s).
Proof.
  unfold handleDisconnect, unpair. cbn [activePairs set_waitingQueue].
  destruct (activePairs s !! userId) as [p|]; [|done]. by destruct (truthy p).
Qed.

Lemma handleDisconnect_again userId s :
  NoDup (waitingQueue s) →
  handleDisconnect userId (handleDisconnect userId s).1 =
    ((handleDisconnect userId s).1, []).
Proof.
  intros Hq. set (d := (handleDisconnect userId s).1).
  assert (settled userId d) as Hd.
  { unfold settled, d. rewrite handleDisconnect_pairs. apply unpair_settled. }
  assert (userId ∉ waitingQueue d) as Hq1.
  { unfold d. rewrite handleDisconnect_queue. by apply removeFromQueue_NoDup. }
  unfold handleDisconnect.
  rewrite removeFromQueue_absent, set_waitingQueue_same by done.
  rewrite (unpair_of_settled _ _ Hd).
  rewrite set_clients_same; [done|].
  unfold d. by rewrite handleDisconnect_clients, delete_delete_eq.
Qed.

(** *** Relaying *)

Lemma relay_unpaired userId message s :
  activePairs s !! userId = None → relay userId message s = (s, []).
Proof. intros H. unfold relay. by rewrite H. Qed.

(** ** The claims about the server *)

(** C5. Pairing is strict FIFO and fires only once two ids wait: after
    P1, P2 and P3 ask for a partner in that order on an empty queue, P1
    and P2 are each other's partner and P3 waits alone; [dequeueTwo]
    takes the two oldest entries, and on fewer than two entries it takes
    nothing, so the queue stays as it is and no pair is made. *)
Theorem fifo_pairing (s : State) (p1 p2 p3 : string) :
  waitingQueue s = [] → p1 ≠ p2 → p1 ≠ p3 → p2 ≠ p3 →
  let s3 := (run s [Message p1 FindPartner; Message p2 FindPartner;
                    Message p3 FindPartner]).1 in
  (partnerOf s3 p1 = Some p2 ∧ partnerOf s3 p2 = Some p1 ∧
   partnerOf s3 p3 = partnerOf s p3 ∧ waitingQueue s3 = [p3] ∧
   activePairs s3 = <[p2 := p1]> (<[p1 := p2]> (activePairs s))) ∧
  (∀ user1 user2 rest,
     dequeueTwo (user1 :: user2 :: rest) = Some (user1, user2, rest)) ∧
  (∀ q, length q < 2 → dequeueTwo q = None) ∧
  (∀ t userId, userId ∉ waitingQueue t → length (waitingQueue t ++ [userId]) < 2 →
     waitingQueue (findPartner userId t).1 = waitingQueue t ++ [userId] ∧
     activePairs (findPartner userId t).1 = activePairs t).
Proof.
  intros Hq H12 H13 H23. split; [|split; [|split]].
  - cbn [run step onMessage].
    rewrite (findPartner_first p1 s Hq).
    rewrite (findPartner_second p2 p1 []); [|done|].
    2:{ apply not_elem_of_cons; split; [done|apply not_elem_of_nil]. }
    cbn [app pairUsers].
    rewrite findPartner_first by done.
    cbn. unfold partnerOf. cbn.
    rewrite lookup_insert_ne, lookup_insert_eq by done.
    rewrite lookup_insert_eq.
    rewrite !lookup_insert_ne by done. done.
  - apply dequeueTwo_oldest.
  - apply dequeueTwo_short.
  - intros t u Hu Hlen. unfold findPartner.
    apply includes_false in Hu. rewrite Hu. cbn [negb].
    cbn [waitingQueue set_waitingQueue].
    by rewrite dequeueTwo_short.
Qed.

(** C6. An offer, answer or ice-candidate from a sender with no entry in
    the pair registry is dropped: nothing is written to any socket and
    the clients, the queue and the pair registry are as before. *)
Theorem relay_without_partner_dropped (s : State) (userId : string) (payload : Payload) :
  activePairs s !! userId = None →
  onMessage userId (Offer payload) s = (s, []) ∧
  onMessage userId (Answer payload) s = (s, []) ∧
  onMessage userId (IceCandidate payload) s = (s, []).
Proof.
  intros H. cbn [onMessage]. by rewrite !relay_unpaired.
Qed.

(** C7. Unpairing is idempotent: in every reachable state, a second
    skip or disconnect from the same id leaves clients, queue and pair
    registry exactly as the first one left them and only acknowledges the
    sender again; a second [handleDisconnect] changes nothing and writes
    nothing. *)
Theorem unpair_idempotent (s : State) (userId : string) :
  reachable s →
  (∀ m1 m2, m1 ∈ [Skip; Disconnect] → m2 ∈ [Skip; Disconnect] →
     let s1 := (onMessage userId m1 s).1 in
     onMessage userId m2 s1 = (s1, sendToClient userId Disconnected s1)) ∧
  (let d := (handleDisconnect userId s).1 in
   handleDisconnect userId d = (d, [])).
Proof.
  intros Hs. apply queue_NoDup in Hs. split.
  - intros m1 m2 H1 H2. cbv zeta.
    assert (onMessage userId m1 s = skip userId s) as ->.
    { apply elem_of_cons in H1 as [->|H1]; [done|].
      apply elem_of_cons in H1 as [->|H1]; [done|]. by apply elem_of_nil in H1. }
    assert (∀ t, onMessage userId m2 t = skip userId t) as ->.
    { intros t. apply elem_of_cons in H2 as [->|H2]; [done|].
      apply elem_of_cons in H2 as [->|H2]; [done|]. by apply elem_of_nil in H2. }
    by apply skip_again.
  - by apply handleDisconnect_again.
Qed.


(** *** Clients that ask for a partner only while unpaired *)

Lemma reachable_polite_reachable s : reachable_polite s → reachable s.
Proof. induction 1; by constructor. Qed.

Lemma unpair_coherent userId s : coherent s → coherent (unpair userId s).1.
Proof.
  intros [Hsym Hdis]. unfold unpair.
  destruct (activePairs s !! userId) as [p|] eqn:Hp; [|done].
  destruct (truthy p); [|done]. split; cbn.
  - intros a b Hab.
    apply lookup_delete_Some in Hab as [Hau Hab].
    apply lookup_delete_Some in Hab as [Hap Hab].
    pose proof (Hsym _ _ Hab) as Hba. pose proof (Hsym _ _ Hp) as Hpu.
    rewrite !lookup_delete_Some. repeat split; [| |done]; congruence.
  - intros a Ha. rewrite !lookup_delete_None. right. right. by apply Hdis.
Qed.

Lemma set_waitingQueue_coherent q s :
  (∀ a, a ∈ q → a ∈ waitingQueue s) → coherent s → coherent (set_waitingQueue q s).
Proof. intros Hq [Hsym Hdis]. split; cbn; [done|]. intros a Ha. by apply Hdis, Hq. Qed.

Lemma skip_coherent userId s : coherent s → coherent (skip userId s).1.
Proof.
  intros Hc. unfold skip.
  pose proof (unpair_coherent userId s Hc) as Hc1.
  destruct (unpair userId s) as [s1 out]. cbn [fst] in *.
  apply set_waitingQueue_coherent; [|done].
  intros a. apply removeFromQueue_elem_of.
Qed.

Lemma handleDisconnect_coherent userId s :
  coherent s → coherent (handleDisconnect userId s).1.
Proof.
  intros Hc. unfold handleDisconnect.
  assert (coherent (set_waitingQueue (removeFromQueue userId (waitingQueue s)) s)) as Hc0.
  { apply set_waitingQueue_coherent; [|done]. intros a. apply removeFromQueue_elem_of. }
  pose proof (unpair_coherent userId _ Hc0) as Hc1.
  destruct (unpair userId _) as [s2 out]. cbn [fst] in *.
  destruct Hc1 as [Hsym Hdis]. split; cbn; done.
Qed.

Lemma findPartner_coherent userId s :
  length (waitingQueue s) ≤ 1 → activePairs s !! userId = None →
  coherent s → coherent (findPartner userId s).1.
Proof.
  intros Hlen Hu [Hsym Hdis].
  destruct (waitingQueue s) as [|x [|y q]] eqn:Hq; [| |simpl in Hlen; lia].
  - rewrite findPartner_first by done. split; cbn; [done|].
    intros a Ha. apply list_elem_of_singleton in Ha as ->. done.
  - assert (activePairs s !! x = None) as Hx.
    { apply Hdis. rewrite ?Hq. apply list_elem_of_here. }
    destruct (decide (userId = x)) as [->|Hne].
    + rewrite findPartner_queued; [split; cbn; [done|by rewrite Hq]|].
      rewrite Hq. apply list_elem_of_here.
    + rewrite (findPartner_second userId x []); [|done|].
      2:{ apply not_elem_of_cons; split; [done|apply not_elem_of_nil]. }
      split; cbn.
      * intros a b Hab.
        apply lookup_insert_Some in Hab as [[-> ->]|[Hua Hab]].
        { rewrite lookup_insert_ne, lookup_insert_eq by done. done. }
        apply lookup_insert_Some in Hab as [[-> ->]|[Hxa Hab]].
        { by rewrite lookup_insert_eq. }
        pose proof (Hsym _ _ Hab) as Hba.
        rewrite !lookup_insert_ne; [done|congruence|congruence].
      * intros a Ha. by apply elem_of_nil in Ha.
Qed.

Lemma coherent_set_clients c s : coherent s → coherent (set_clients c s).
Proof. intros [Hsym Hdis]. split; cbn; done. Qed.

(** As long as nobody asks for a partner while paired, the registry stays
    symmetric and no id is both waiting and paired. *)
Lemma polite_coherent s : reachable_polite s → coherent s.
Proof.
  induction 1 as [|s e Hs IH Hpol].
  - split; cbn; [done|]. intros a Ha. by apply elem_of_nil in Ha.
  - pose proof (queue_short s (reachable_polite_reachable s Hs)) as Hlen.
    destruct e as [u|u m|u|u|u|u rs]; cbn [step].
    + by apply coherent_set_clients.
    + destruct m; cbn [onMessage]; rewrite ?relay_state; try done.
      * cbn in Hpol. apply bool_decide_eq_true in Hpol.
        by apply findPartner_coherent.
      * by apply skip_coherent.
      * by apply skip_coherent.
    + done.
    + by apply handleDisconnect_coherent.
    + by apply handleDisconnect_coherent.
    + destruct (clients s !! u); [|done]. by apply coherent_set_clients.
Qed.


Lemma run_reachable evs : ∀ s, reachable s → reachable (run s evs).1.
Proof.
  induction evs as [|e evs IH]; intros s Hs; [done|].
  cbn [run]. pose proof (reachable_step s e Hs) as H1.
  destruct (step s e) as [s1 out1]. specialize (IH s1 H1).
  by destruct (run s1 evs) as [s2 out2].
Qed.

(** *** Skip followed by a new request *)

Lemma skip_then_find s a b :
  reachable s → activePairs s !! a = Some b → truthy b = true →
  let s' := (run s [Message a Skip; Message a FindPartner]).1 in
  (a ∈ waitingQueue s' ∨ is_Some (activePairs s' !! a)) ∧
  (b ∈ waitingQueue s' → b ∈ waitingQueue s) ∧
  (activePairs s' !! b = None ∨
   (b ∈ waitingQueue s ∧ activePairs s' !! b = Some a)).
Proof.
  intros Hs Hab Hb.
  pose proof (no_self_pair s Hs a) as Hirr.
  assert (a ≠ b) as Hne by congruence.
  pose proof (queue_NoDup s Hs) as Hnd.
  pose proof (queue_short s Hs) as Hlen.
  cbn [run step onMessage].
  destruct (skip a s) as [s1 out1] eqn:Hskip.
  assert (waitingQueue s1 = removeFromQueue a (waitingQueue s)) as Hq1.
  { change s1 with (s1, out1).1. by rewrite <- Hskip, skip_queue. }
  assert (activePairs s1 = delete a (delete b (activePairs s))) as Hp1.
  { change s1 with (s1, out1).1. rewrite <- Hskip, skip_pairs.
    unfold unpair. by rewrite Hab, Hb. }
  assert (a ∉ waitingQueue s1) as Ha1.
  { rewrite Hq1. by apply removeFromQueue_NoDup. }
  assert (∀ x, x ∈ waitingQueue s1 → x ∈ waitingQueue s) as Hsub.
  { intros x. rewrite Hq1. apply removeFromQueue_elem_of. }
  assert (activePairs s1 !! b = None) as Hpb.
  { rewrite Hp1, lookup_delete_ne, lookup_delete_eq by done. done. }
  assert (length (waitingQueue s1) ≤ 1) as Hlen1.
  { rewrite Hq1. etrans; [apply removeFromQueue_length|done]. }
  destruct (waitingQueue s1) as [|x [|y q]] eqn:Hq; [| |simpl in Hlen1; lia].
  - rewrite findPartner_first by done. cbn. split; [|split].
    + left. apply list_elem_of_here.
    + intros H. apply list_elem_of_singleton in H. congruence.
    + by left.
  - apply not_elem_of_cons in Ha1 as [Hax _].
    rewrite (findPartner_second a x []); [|done|].
    2:{ apply not_elem_of_cons; split; [done|apply not_elem_of_nil]. }
    cbn. split; [|split].
    + right. rewrite lookup_insert_eq. by eexists.
    + intros H. by apply elem_of_nil in H.
    + destruct (decide (x = b)) as [->|Hxb].
      * right. split; [apply Hsub, list_elem_of_here|].
        by rewrite lookup_insert_ne, lookup_insert_eq.
      * left. by rewrite !lookup_insert_ne.
Qed.

Lemma skip_only s a b :
  reachable s → activePairs s !! a = Some b → truthy b = true →
  let s1 := (onMessage a Skip s).1 in
  activePairs s1 !! a = None ∧ activePairs s1 !! b = None ∧
  (a ∉ waitingQueue s1) ∧ (b ∈ waitingQueue s1 ↔ b ∈ waitingQueue s) ∧
  clients s1 = clients s.
Proof.
  intros Hs Hab Hb. cbv zeta. cbn [onMessage].
  assert (a ≠ b) as Hne by (intros ->; by apply (no_self_pair s Hs b)).
  rewrite skip_pairs, skip_queue, skip_clients. unfold unpair. rewrite Hab, Hb. cbn.
  split; [apply lookup_delete_eq|].
  split; [by rewrite lookup_delete_ne, lookup_delete_eq|].
  split; [apply removeFromQueue_NoDup; by apply queue_NoDup|].
  split; [|done]. split; [apply removeFromQueue_elem_of|].
  intros Hin. induction (waitingQueue s) as [|x q IH]; [done|].
  rewrite removeFromQueue_cons. apply elem_of_cons in Hin as [Heq|Hin].
  - destruct (decide (x = a)); [congruence|]. rewrite Heq. apply list_elem_of_here.
  - destruct (decide (x = a)); [done|]. apply list_elem_of_further. by apply IH.
Qed.

(** ** The claims about the server, continued *)

(** C1. A find-partner from a paired participant is appended to the
    waiting queue: after A and B are paired and A asks again, A is both
    waiting and a key of the pair registry. *)
Theorem paired_sender_requeued :
  let s := (run init requeue_trace).1 in
  reachable s ∧ "A" ∈ waitingQueue s ∧ activePairs s !! "A" = Some "B" ∧
  (run init requeue_trace).2 =
    (run init pair_trace).2 ++ [("A", Waiting)].
Proof.
  cbv zeta. split; [apply run_reachable, reachable_init|].
  split; [|split].
  - replace (waitingQueue (run init requeue_trace).1) with ["A"] by by vm_compute.
    apply list_elem_of_here.
  - by vm_compute.
  - by vm_compute.
Qed.

(** C2. The pair relation of a reachable state can be asymmetric: once
    the re-queued A is matched with a third client C, B's entry still
    names A while A's entry names C. *)
Theorem stale_pair_entry :
  let s := (run init third_party_trace).1 in
  reachable s ∧ partnerOf s "B" = Some "A" ∧ partnerOf s "A" = Some "C" ∧
  partnerOf s "C" = Some "A" ∧ size (activePairs s) = 3.
Proof.
  cbv zeta. split; [apply run_reachable, reachable_init|].
  repeat split; by vm_compute.
Qed.

(** *** Instances *)

Lemma fifo_pairing_witness :
  let s3 := (run (run init three_trace).1
               [Message "P1" FindPartner; Message "P2" FindPartner;
                Message "P3" FindPartner]).1 in
  (partnerOf s3 "P1" = Some "P2" ∧ partnerOf s3 "P2" = Some "P1" ∧
   partnerOf s3 "P3" = partnerOf (run init three_trace).1 "P3" ∧
   waitingQueue s3 = ["P3"]) ∧
  dequeueTwo ["P3"] = None ∧
  waitingQueue (findPartner "P1" init).1 = ["P1"].
Proof.
  destruct (fifo_pairing (run init three_trace).1 "P1" "P2" "P3")
    as ((H1 & H2 & H3 & H4 & _) & _ & Hshort & Hkeep);
    [reflexivity|discriminate|discriminate|discriminate|].
  split; [exact (conj H1 (conj H2 (conj H3 H4)))|]. split.
  - apply Hshort. simpl. lia.
  - apply (Hkeep init "P1"); [apply not_elem_of_nil|simpl; lia].
Defined.

Lemma relay_without_partner_dropped_witness :
  onMessage "A" (Offer (Some "sdp")) (run init [Connection "A"]).1 =
    ((run init [Connection "A"]).1, []).
Proof.
  apply (relay_without_partner_dropped (run init [Connection "A"]).1 "A" (Some "sdp")).
  reflexivity.
Defined.

Lemma unpair_idempotent_witness :
  (let s1 := (onMessage "A" Skip (run init pair_trace).1).1 in
   onMessage "A" Disconnect s1 = (s1, sendToClient "A" Disconnected s1)) ∧
  (let d := (handleDisconnect "A" (run init pair_trace).1).1 in
   handleDisconnect "A" d = (d, [])).
Proof.
  destruct (unpair_idempotent (run init pair_trace).1 "A") as [Hskip Hclose].
  - apply run_reachable, reachable_init.
  - split; [|exact Hclose].
    apply (Hskip Skip Disconnect).
    + apply list_elem_of_here.
    + apply list_elem_of_further, list_elem_of_here.
Defined.

End ServerFacts.

(** ** Facts about the browser client *)

Module ClientFacts.
Import Protocol Client.

Lemma set_webrtc_same c : set_webrtc (webrtc c) c = c.
Proof. by destruct c. Qed.

(** *** Sending *)

Lemma send_not_open message c :
  (ws (signaling c) = None ∨
   ∃ h, ws (signaling c) = Some h ∧ sockets (browser c) !! h ≠ Some OPEN) →
  send message c = (c, false).
Proof.
  intros [Hws|(h & Hws & Hrs)]; unfold send; rewrite Hws; [done|].
  destruct (sockets (browser c) !! h) as [[]|]; done.
Qed.

Lemma send_open message c h :
  ws (signaling c) = Some h → sockets (browser c) !! h = Some OPEN →
  send message c =
    (set_browser (mkBrowser (sockets (browser c)) (timers (browser c))
                            (wire (browser c) ++ [(h, message)])) c, true).
Proof. intros Hws Hrs. unfold send. by rewrite Hws, Hrs. Qed.

Lemma send_keeps message c :
  app (send message c).1 = app c ∧ webrtc (send message c).1 = webrtc c ∧
  signaling (send message c).1 = signaling c ∧
  sockets (browser (send message c).1) = sockets (browser c) ∧
  timers (browser (send message c).1) = timers (browser c).
Proof.
  unfold send. destruct (ws (signaling c)) as [h|]; [|done].
  destruct (sockets (browser c) !! h) as [[]|]; done.
Qed.

Lemma skip_partnerId c : partnerId (signaling (skip c)) = None.
Proof. reflexivity. Qed.

Lemma disconnect_partnerId c : partnerId (signaling (disconnect c)) = None.
Proof. reflexivity. Qed.

Lemma set_partnerId_wire p c :
  wire (browser (set_partnerId p c)) = wire (browser c).
Proof. reflexivity. Qed.

(** *** Reconnecting *)

Lemma reconnectDelay_bounds n : (1000 ≤ reconnectDelay n ≤ 30000)%Z.
Proof.
  unfold reconnectDelay.
  assert (1 ≤ 2 ^ Z.of_nat n)%Z by (apply Z.pow_le_mono_r with (b := 0%Z); lia).
  lia.
Qed.

Lemma reconnectDelay_doubles n :
  reconnectDelay (S n) = Z.min (2 * reconnectDelay n) 30000.
Proof.
  unfold reconnectDelay. rewrite Nat2Z.inj_succ, Z.pow_succ_r by lia. lia.
Qed.

Lemma attemptReconnect_lt c :
  reconnectAttempts (signaling c) < maxReconnectAttempts (signaling c) →
  attemptReconnect c =
    set_browser (mkBrowser (sockets (browser c))
                   (timers (browser c) ++ [reconnectDelay (S (reconnectAttempts (signaling c)))])
                   (wire (browser c)))
      (set_reconnectAttempts (S (reconnectAttempts (signaling c))) c).
Proof.
  intros Hlt. unfold attemptReconnect.
  apply Nat.ltb_lt in Hlt. by rewrite Hlt.
Qed.

Lemma attemptReconnect_ge c :
  maxReconnectAttempts (signaling c) ≤ reconnectAttempts (signaling c) →
  attemptReconnect c = c.
Proof.
  intros Hge. unfold attemptReconnect.
  apply Nat.ltb_ge in Hge. by rewrite Hge.
Qed.

(** [k] close events in a row, none of them followed by an open. *)
Lemma attemptReconnect_iter k c :
  let c' := Nat.iter k attemptReconnect c in
  let left := maxReconnectAttempts (signaling c) - reconnectAttempts (signaling c) in
  maxReconnectAttempts (signaling c') = maxReconnectAttempts (signaling c) ∧
  reconnectAttempts (signaling c') = reconnectAttempts (signaling c) + k `min` left ∧
  length (timers (browser c')) = length (timers (browser c)) + k `min` left.
Proof.
  induction k as [|k IH]; [cbn; lia|].
  cbv zeta in *. destruct IH as (Hmax & Hatt & Hlen).
  change (Nat.iter (S k) attemptReconnect c)
    with (attemptReconnect (Nat.iter k attemptReconnect c)).
  set (c' := Nat.iter k attemptReconnect c) in *.
  destruct (decide (reconnectAttempts (signaling c') < maxReconnectAttempts (signaling c')))
    as [Hlt|Hge].
  - rewrite attemptReconnect_lt by done.
    cbn [signaling browser timers set_browser set_reconnectAttempts set_signaling
         reconnectAttempts maxReconnectAttempts].
    rewrite length_app. cbn [length]. lia.
  - rewrite attemptReconnect_ge by lia. lia.
Qed.


(** *** Remote candidates *)

Lemma receiveCandidates_cons P from candidate candidates c :
  receiveCandidates P from (candidate :: candidates) c =
  receiveCandidates P from candidates (onIceCandidate P candidate c).
Proof. reflexivity. Qed.

Lemma onIceCandidate_no_connection P candidate c :
  peerConnection (webrtc c) = None → onIceCandidate P candidate c = c.
Proof.
  intros Hpc. unfold onIceCandidate, addIceCandidate. rewrite Hpc.
  apply set_webrtc_same.
Qed.

Lemma onIceCandidate_no_remote o a candidate c :
  hasRemoteDescription c = false → onIceCandidate (w3c o a) candidate c = c.
Proof.
  unfold hasRemoteDescription, onIceCandidate, addIceCandidate.
  destruct (peerConnection (webrtc c)) as [pc|]; [|intros _; apply set_webrtc_same].
  destruct candidate as [cand|]; [|intros _; apply set_webrtc_same].
  cbn. destruct (remoteDescription pc) as [d|]; [|intros _; apply set_webrtc_same].
  intros H. apply bool_decide_eq_false in H. destruct H. by eexists.
Qed.

Lemma onIceCandidate_remote o a candidate c :
  hasRemoteDescription c = true →
  hasRemoteDescription (onIceCandidate (w3c o a) candidate c) = true ∧
  applied (onIceCandidate (w3c o a) candidate c) =
    applied c ++ match candidate with Some cand => [cand] | None => [] end.
Proof.
  unfold hasRemoteDescription, applied, onIceCandidate, addIceCandidate.
  destruct (peerConnection (webrtc c)) as [pc|] eqn:Hpc; [|done].
  intros Hrd. destruct candidate as [cand|]; cbn.
  - destruct (remoteDescription pc) as [d|] eqn:Hd; cbn.
    + done.
    + apply bool_decide_eq_true in Hrd. by destruct Hrd.
  - by rewrite Hpc, app_nil_r.
Qed.

Lemma receiveCandidates_remote o a from candidates : ∀ c,
  hasRemoteDescription c = true →
  applied (receiveCandidates (w3c o a) from candidates c) =
    applied c ++ omap id candidates.
Proof.
  induction candidates as [|candidate candidates IH]; intros c Hrd.
  - cbn. by rewrite app_nil_r.
  - rewrite receiveCandidates_cons.
    destruct (onIceCandidate_remote o a candidate c Hrd) as [Hrd' Happ].
    rewrite (IH _ Hrd'), Happ, <- app_assoc. by destruct candidate.
Qed.

Lemma receiveCandidates_no_remote o a from candidates c :
  hasRemoteDescription c = false →
  receiveCandidates (w3c o a) from candidates c = c.
Proof.
  intros Hrd. induction candidates as [|candidate candidates IH]; [done|].
  by rewrite receiveCandidates_cons, onIceCandidate_no_remote.
Qed.

Lemma receiveCandidates_no_connection P from candidates c :
  peerConnection (webrtc c) = None →
  receiveCandidates P from candidates c = c.
Proof.
  intros Hpc. induction candidates as [|candidate candidates IH]; [done|].
  by rewrite receiveCandidates_cons, onIceCandidate_no_connection.
Qed.

(** *** Roles *)

Lemma onPaired_isInitiator P c : isInitiator (app (onPaired P c)) = true.
Proof.
  unfold onPaired. destruct (createOffer P _) as [w [offer|]]; [|reflexivity].
  unfold sendOffer. cbn. by destruct (send_keeps (Offer (Some offer))
    (set_webrtc w (setIsInitiator true (setStatus StPaired c)))) as [-> _].
Qed.

Lemma onOffer_isInitiator P offer c : isInitiator (app (onOffer P offer c)) = false.
Proof.
  unfold onOffer. destruct (createAnswer P offer _) as [w [answer|]]; [|reflexivity].
  unfold sendAnswer. by destruct (send_keeps (Answer (Some answer))
    (set_webrtc w (setStatus StConnecting (setIsInitiator false c)))) as [-> _].
Qed.

(** *** Skipping *)

Lemma skipPartner_wire c h :
  ws (signaling c) = Some h → sockets (browser c) !! h = Some OPEN →
  wire (browser (skipPartner c)) = wire (browser c) ++ [(h, Skip); (h, FindPartner)].
Proof.
  intros Hws Hrs. unfold skipPartner, findPartner, skip.
  rewrite (send_open Skip (handleDisconnect c) h) by done. cbn [fst].
  rewrite (send_open FindPartner _ h) by done. cbn.
  by rewrite <- app_assoc.
Qed.

Lemma partnerLeft_wire P c :
  wire (browser (handleMessage P PartnerLeft c)) = wire (browser c) ∧
  partnerId (signaling (handleMessage P PartnerLeft c)) = None.
Proof. done. Qed.


(** *** Events that leave the network side alone *)

Lemma send_netState message c : netState (send message c).1 = netState c.
Proof.
  unfold netState. destruct (send_keeps message c) as (_ & _ & -> & -> & ->). done.
Qed.

Lemma onPaired_netState P c : netState (onPaired P c) = netState c.
Proof.
  unfold onPaired. destruct (createOffer P _) as [w [offer|]]; [|done].
  unfold sendOffer.
  change (netState (setStatus StConnecting ?x)) with (netState x).
  by rewrite send_netState.
Qed.

Lemma onOffer_netState P offer c : netState (onOffer P offer c) = netState c.
Proof.
  unfold onOffer. destruct (createAnswer P offer _) as [w [answer|]]; [|done].
  unfold sendAnswer. by rewrite send_netState.
Qed.

Lemma handleMessage_netState P message c :
  netState (handleMessage P message c) = netState c.
Proof.
  destruct message; cbn [handleMessage]; try done.
  - by rewrite onPaired_netState.
  - by rewrite onOffer_netState.
Qed.

Lemma skipPartner_netState c : netState (skipPartner c) = netState c.
Proof.
  unfold skipPartner, findPartner, skip. rewrite send_netState.
  change (netState (setStatus StWaiting (set_partnerId None ?x))) with (netState x).
  by rewrite send_netState.
Qed.

Lemma sendIceCandidate_netState cand c : netState (sendIceCandidate cand c) = netState c.
Proof. unfold sendIceCandidate. apply send_netState. Qed.

Lemma netState_inv c c' :
  netState c' = netState c →
  ws (signaling c') = ws (signaling c) ∧
  reconnectAttempts (signaling c') = reconnectAttempts (signaling c) ∧
  maxReconnectAttempts (signaling c') = maxReconnectAttempts (signaling c) ∧
  sockets (browser c') = sockets (browser c) ∧
  timers (browser c') = timers (browser c).
Proof. unfold netState. intros H. by injection H. Qed.

(** One event that is not an open: the bound stays, the counter grows by
    the attempts scheduled, each new timer carries the delay of its
    attempt, and each fired timer or granted Start makes one socket. *)
Lemma step_backoff P c e :
  no_open [e] = true →
  let n := reconnectAttempts (signaling c) in
  let m := maxReconnectAttempts (signaling c) in
  let c' := step P c e in
  let n' := reconnectAttempts (signaling c') in
  maxReconnectAttempts (signaling c') = m ∧ n ≤ n' ∧ n' - n ≤ m - n ∧
  firedBy c e ++ timers (browser c') ≡ₚ
    timers (browser c) ++ (reconnectDelay <$> seq (S n) (n' - n)) ∧
  length (sockets (browser c')) =
    length (sockets (browser c)) + length (firedBy c e) + starts [e].
Proof.
  intros Hno. cbv zeta.
  assert (∀ c', netState c' = netState c → firedBy c e = [] → starts [e] = 0 →
     maxReconnectAttempts (signaling c') = maxReconnectAttempts (signaling c) ∧
     reconnectAttempts (signaling c) ≤ reconnectAttempts (signaling c') ∧
     reconnectAttempts (signaling c') - reconnectAttempts (signaling c) ≤
       maxReconnectAttempts (signaling c) - reconnectAttempts (signaling c) ∧
     firedBy c e ++ timers (browser c') ≡ₚ
       timers (browser c) ++
       (reconnectDelay <$> seq (S (reconnectAttempts (signaling c)))
          (reconnectAttempts (signaling c') - reconnectAttempts (signaling c))) ∧
     length (sockets (browser c')) =
       length (sockets (browser c)) + length (firedBy c e) + starts [e]) as Hquiet.
  { intros c' Hnet Hf Hst. apply netState_inv in Hnet as (_ & -> & -> & -> & ->).
    rewrite Hf, Hst, Nat.sub_diag. cbn. rewrite app_nil_r. repeat split; try done; lia. }
  destruct e as [h|h [message|]|h|h|i|cand|media| |]; cbn [step].
  - discriminate Hno.
  - apply Hquiet; [apply handleMessage_netState|done|done].
  - by apply Hquiet.
  - by apply Hquiet.
  - (* close event *)
    unfold ws_onclose. cbn [firedBy starts app length]. rewrite !Nat.add_0_r.
    remember (onDisconnected (set_socket h CLOSED c)) as c0 eqn:Hc0.
    assert (reconnectAttempts (signaling c0) = reconnectAttempts (signaling c) ∧
            maxReconnectAttempts (signaling c0) = maxReconnectAttempts (signaling c) ∧
            timers (browser c0) = timers (browser c) ∧
            length (sockets (browser c0)) = length (sockets (browser c)))
      as (Hn & Hm & Ht & Hs).
    { subst c0. cbn. by rewrite length_insert. }
    clear Hc0.
    destruct (decide (reconnectAttempts (signaling c0) < maxReconnectAttempts (signaling c0)))
      as [Hlt|Hge].
    + rewrite attemptReconnect_lt by done.
      cbn [signaling browser timers sockets set_browser set_reconnectAttempts
           set_signaling reconnectAttempts maxReconnectAttempts].
      rewrite Hn, Hm, Ht, Hs in *.
      replace (S (reconnectAttempts (signaling c)) - reconnectAttempts (signaling c))
        with 1 by lia.
      cbn [seq fmap list_fmap]. repeat split; try done; lia.
    + rewrite attemptReconnect_ge by lia. rewrite Hn, Hm, Ht, Hs, Nat.sub_diag.
      cbn [seq fmap list_fmap]. rewrite app_nil_r. repeat split; try done; lia.
  - (* timer *)
    unfold timerFired, firedBy. cbn [starts]. rewrite Nat.add_0_r.
    destruct (timers (browser c) !! i) as [d|] eqn:Ht.
    + cbn. rewrite Nat.sub_diag, length_app. cbn. rewrite app_nil_r.
      repeat split; try lia. symmetry. by apply delete_Permutation.
    + rewrite Nat.sub_diag. cbn. rewrite app_nil_r. repeat split; try done; lia.
  - destruct (peerConnection (webrtc c)); [destruct (callbacks (webrtc c))|];
      apply Hquiet; try done. apply sendIceCandidate_netState.
  - destruct media; try by apply Hquiet.
    unfold startChat, findPartner, firedBy. cbn [starts app length].
    destruct (send_keeps FindPartner
      (connect (set_localStream true (setStatus StInitializing (setError None c)))))
      as (_ & _ & -> & -> & ->).
    cbn. rewrite Nat.sub_diag, length_app. cbn. rewrite app_nil_r.
    repeat split; try done; lia.
  - apply Hquiet; [apply skipPartner_netState|done|done].
  - unfold stopChat, cleanup, close, firedBy. cbn [starts app length].
    destruct (ws (signaling c)) as [h|] eqn:Hws; cbn; rewrite ?Hws; cbn;
      rewrite Nat.sub_diag, ?length_alter; cbn; rewrite app_nil_r;
      repeat split; try done; lia.
Qed.


Lemma starts_cons e evs : starts (e :: evs) = starts [e] + starts evs.
Proof. destruct e as [| | | | | |[]| |]; reflexivity. Qed.

(** The same over a run with no open in it. *)
Lemma run_backoff P evs : ∀ c,
  no_open evs = true →
  let n := reconnectAttempts (signaling c) in
  let m := maxReconnectAttempts (signaling c) in
  let c' := run P c evs in
  let n' := reconnectAttempts (signaling c') in
  maxReconnectAttempts (signaling c') = m ∧ n ≤ n' ∧ n' - n ≤ m - n ∧
  firedDelays P c evs ++ timers (browser c') ≡ₚ
    timers (browser c) ++ (reconnectDelay <$> seq (S n) (n' - n)) ∧
  length (sockets (browser c')) =
    length (sockets (browser c)) + length (firedDelays P c evs) + starts evs.
Proof.
  induction evs as [|e evs IH]; intros c Hno; cbv zeta.
  - cbn. rewrite Nat.sub_diag. cbn. rewrite app_nil_r. repeat split; try done; lia.
  - cbn [no_open forallb] in Hno. apply andb_true_iff in Hno as [He Hevs].
    assert (no_open [e] = true) as He1 by (cbn; by rewrite He).
    destruct (step_backoff P c e He1) as (Hm1 & Hle1 & Hb1 & Ht1 & Hs1).
    destruct (IH (step P c e) Hevs) as (Hm2 & Hle2 & Hb2 & Ht2 & Hs2).
    change (run P c (e :: evs)) with (run P (step P c e) evs).
    cbn [firedDelays]. rewrite starts_cons, length_app.
    set (n := reconnectAttempts (signaling c)) in *.
    set (n1 := reconnectAttempts (signaling (step P c e))) in *.
    set (n2 := reconnectAttempts (signaling (run P (step P c e) evs))) in *.
    rewrite Hm1 in *.
    split; [lia|]. split; [lia|]. split; [lia|]. split; [|lia].
    rewrite <- app_assoc, Ht2, app_assoc, Ht1, <- app_assoc, <- fmap_app.
    replace (n2 - n) with ((n1 - n) + (n2 - n1)) by lia.
    rewrite seq_app. by replace (S n + (n1 - n)) with (S n1) by lia.
Qed.

(** *** Being offline *)

Lemma isConnected_netState c c' :
  netState c' = netState c → isConnected c' = isConnected c.
Proof.
  intros H. apply netState_inv in H as (Hws & _ & _ & Hs & _).
  unfold isConnected. by rewrite Hws, Hs.
Qed.

Lemma isConnected_false c :
  isConnected c = false ↔
  (ws (signaling c) = None ∨
   ∃ h, ws (signaling c) = Some h ∧ sockets (browser c) !! h ≠ Some OPEN).
Proof.
  unfold isConnected. destruct (ws (signaling c)) as [h|]; split.
  - intros H. apply bool_decide_eq_false in H. right. by exists h.
  - intros [?|(h' & Hh & H)]; [done|]. injection Hh as <-.
    by apply bool_decide_eq_false.
  - by left.
  - done.
Qed.

Lemma connect_offline c : isConnected (connect c) = false.
Proof.
  unfold isConnected. cbn.
  apply bool_decide_eq_false. by rewrite list_lookup_middle.
Qed.

Lemma close_offline c : isConnected c = false → isConnected (close c) = false.
Proof.
  intros H. unfold close. destruct (ws (signaling c)); [done|exact H].
Qed.

Lemma close_offline_any c : isConnected (close c) = false.
Proof.
  unfold close. destruct (ws (signaling c)) eqn:Hws; [done|].
  unfold isConnected. by rewrite Hws.
Qed.

(** Without an open, a client that cannot send stays unable to send. *)
Lemma step_offline P c e :
  no_open [e] = true → isConnected c = false → isConnected (step P c e) = false.
Proof.
  intros Hno Hoff.
  destruct e as [h|h [message|]|h|h|i|cand|media| |]; cbn [step]; try done.
  - by rewrite (isConnected_netState c); [|apply handleMessage_netState].
  - unfold ws_onclose.
    assert (isConnected (set_socket h CLOSED c) = false) as H.
    { apply isConnected_false in Hoff as [Hws|(h' & Hws & Hrs)];
        apply isConnected_false; [by left|right]. exists h'. split; [done|].
      cbn. destruct (decide (h = h')) as [->|Hne].
      - destruct (decide (h' < length (sockets (browser c)))).
        + by rewrite list_lookup_insert_eq.
        + by rewrite list_insert_ge by lia.
      - by rewrite list_lookup_insert_ne. }
    unfold attemptReconnect. by destruct (_ <? _).
  - unfold timerFired. destruct (timers (browser c) !! i); [|done].
    apply connect_offline.
  - destruct (peerConnection (webrtc c)); [destruct (callbacks (webrtc c))|]; try done.
    by rewrite (isConnected_netState c); [|apply sendIceCandidate_netState].
  - destruct media; try done. unfold startChat, findPartner.
    rewrite (isConnected_netState (connect
      (set_localStream true (setStatus StInitializing (setError None c)))));
      [apply connect_offline|apply send_netState].
  - by rewrite (isConnected_netState c); [|apply skipPartner_netState].
  - unfold stopChat, cleanup.
    change (isConnected (setStatus StDisconnected ?x)) with (isConnected x).
    apply close_offline_any.
Qed.

Lemma run_offline P evs : ∀ c,
  no_open evs = true → isConnected c = false → isConnected (run P c evs) = false.
Proof.
  induction evs as [|e evs IH]; intros c Hno Hoff; [done|].
  cbn [no_open forallb] in Hno. apply andb_true_iff in Hno as [He Hevs].
  change (run P c (e :: evs)) with (run P (step P c e) evs).
  apply IH; [done|]. apply step_offline; [|done]. cbn. by rewrite He.
Qed.


(** ** The claims about the client *)

(** C3. Both sides of a pairing are told [paired], and every side that is
    told [paired] makes itself initiator, creates an offer and sends it:
    after A and B are matched, both have [isInitiator] set and both have
    written an offer; when the two offers cross, both also answer. *)
Theorem both_sides_initiate :
  let out := (Server.run Server.init Server.pair_trace).2 in
  let PA := w3c "offerA" "answerA" in
  let PB := w3c "offerB" "answerB" in
  let cA := deliver PA (Server.inbox "A" out) searching in
  let cB := deliver PB (Server.inbox "B" out) searching in
  Server.inbox "A" out = [Connected "A"; Waiting; Paired "B"] ∧
  Server.inbox "B" out = [Connected "B"; Paired "A"] ∧
  isInitiator (app cA) = true ∧ isInitiator (app cB) = true ∧
  wire (browser cA) = [(0, FindPartner); (0, Offer (Some "offerA"))] ∧
  wire (browser cB) = [(0, FindPartner); (0, Offer (Some "offerB"))] ∧
  wire (browser (handleMessage PA (OfferFrom (Some "offerB") "B") cA)) =
    [(0, FindPartner); (0, Offer (Some "offerA")); (0, Answer (Some "answerA"))] ∧
  (∀ P c p, isInitiator (app (handleMessage P (Paired p) c)) = true).
Proof.
  cbv zeta. repeat split; try by vm_compute.
  intros P c p. apply onPaired_isInitiator.
Qed.

(** C4, as stated, fails: the initiator A has a peer connection but no
    remote description yet; two candidates from B arrive, then B's
    answer.  The remote description is then set, and neither candidate
    has been applied. *)
Lemma early_candidates_lost :
  ¬ buffered_until_remote (w3c "offerA" "answerA")
      (deliver (w3c "offerA" "answerA") [Paired "B"] searching)
      "B" ["c1"; "c2"] "answerB".
Proof.
  intros H. specialize (H eq_refl eq_refl). vm_compute in H. discriminate H.
Qed.

(** C4, amended. The client keeps no candidate buffer.  With a remote
    description set, the candidates of a burst are applied at once, in the
    order received, none lost or duplicated (null candidates are
    skipped).  Without one, every candidate is handed to the peer
    connection, rejected and dropped, and the client is exactly as if the
    burst had never arrived; with no peer connection at all the burst is
    dropped whatever the browser. *)
Theorem candidates_applied_without_buffer
    (o a from : string) (c : Client) (candidates : list Payload) :
  let P := w3c o a in
  (hasRemoteDescription c = true →
   applied (receiveCandidates P from candidates c) = applied c ++ omap id candidates) ∧
  (hasRemoteDescription c = false → receiveCandidates P from candidates c = c) ∧
  (∀ P', peerConnection (webrtc c) = None →
         receiveCandidates P' from candidates c = c).
Proof.
  cbv zeta. split; [|split].
  - apply receiveCandidates_remote.
  - apply receiveCandidates_no_remote.
  - intros P'. apply receiveCandidates_no_connection.
Qed.

Lemma candidates_applied_without_buffer_witness :
  let P := w3c "offerB" "answerB" in
  let responder := handleMessage P (OfferFrom (Some "offerA") "A") searching in
  let initiator := deliver P [Paired "A"] searching in
  applied (receiveCandidates P "A" [Some "c1"; None; Some "c2"] responder) = ["c1"; "c2"] ∧
  receiveCandidates P "A" [Some "c1"; None; Some "c2"] initiator = initiator ∧
  receiveCandidates P "A" [Some "c1"; None; Some "c2"] searching = searching.
Proof.
  cbv zeta. split; [|split].
  - apply (proj1 (candidates_applied_without_buffer "offerB" "answerB" "A"
             (handleMessage (w3c "offerB" "answerB") (OfferFrom (Some "offerA") "A") searching)
             [Some "c1"; None; Some "c2"])).
    reflexivity.
  - apply (proj1 (proj2 (candidates_applied_without_buffer "offerB" "answerB" "A"
             (deliver (w3c "offerB" "answerB") [Paired "A"] searching)
             [Some "c1"; None; Some "c2"]))).
    reflexivity.
  - apply (proj2 (proj2 (candidates_applied_without_buffer "offerB" "answerB" "A"
             searching [Some "c1"; None; Some "c2"])) (w3c "offerB" "answerB")).
    reflexivity.
Defined.

(** C8, as stated, fails: the user stops an open session; when the close
    event of that socket is delivered, a reconnection is scheduled. *)
Lemma reconnects_after_close : ¬ no_reconnect_after_close online 0.
Proof.
  intros H. specialize (H eq_refl). vm_compute in H. discriminate H.
Qed.

(** C8, amended. Each close event calls [attemptReconnect], which, while
    fewer than [maxReconnectAttempts] attempts have been made since the
    last open, counts one attempt and schedules [connect()] after
    min(1000 * 2^attempt, 30000) ms: 2000, 4000, 8000, 16000, 30000, each
    the double of the one before up to the cap.  Past the bound it does
    nothing.  An open resets the count.  Over any run of events with no
    open in it (closes, timers firing and connecting, errors, frames,
    button presses), the bound stays, the attempts scheduled are at most
    the ones left, the timers that fired followed by the pending ones
    are, up to the order in which timers expire, the ones pending at the
    start followed by the delays of exactly those attempts, and every
    fired timer made one socket.
    [close()] closes the current socket and clears [ws], [userId] and
    [partnerId], but cancels nothing: the pending timers stay, and the
    close event of the socket it closed schedules the next attempt like
    any other. *)
Theorem reconnect_backoff (P : Platform) (c : Client) (h k : nat) (evs : list Event) :
  let n := reconnectAttempts (signaling c) in
  let m := maxReconnectAttempts (signaling c) in
  (n < m →
   timers (browser (attemptReconnect c)) = timers (browser c) ++ [reconnectDelay (S n)] ∧
   reconnectAttempts (signaling (attemptReconnect c)) = S n) ∧
  (m ≤ n → attemptReconnect c = c) ∧
  (∀ i, reconnectDelay i = Z.min (1000 * 2 ^ Z.of_nat i) 30000 ∧
        reconnectDelay (S i) = Z.min (2 * reconnectDelay i) 30000 ∧
        (1000 ≤ reconnectDelay i ≤ 30000)%Z) ∧
  reconnectDelay <$> [1; 2; 3; 4; 5] = [2000; 4000; 8000; 16000; 30000]%Z ∧
  length (timers (browser (Nat.iter k attemptReconnect c))) =
    length (timers (browser c)) + k `min` (m - n) ∧
  reconnectAttempts (signaling (ws_onopen h c)) = 0 ∧
  (no_open evs = true →
   let c' := run P c evs in
   let n' := reconnectAttempts (signaling c') in
   maxReconnectAttempts (signaling c') = m ∧ n ≤ n' ∧ n' - n ≤ m - n ∧
   firedDelays P c evs ++ timers (browser c') ≡ₚ
     timers (browser c) ++ (reconnectDelay <$> seq (S n) (n' - n)) ∧
   length (sockets (browser c')) =
     length (sockets (browser c)) + length (firedDelays P c evs) + starts evs) ∧
  (ws (signaling c) = Some h →
   signaling (close c) = mkSignaling None None None n m ∧
   sockets (browser (close c)) = alter ws_close h (sockets (browser c)) ∧
   timers (browser (close c)) = timers (browser c)) ∧
  (ws (signaling c) = Some h → n < m →
   timers (browser (ws_onclose h (close c))) = timers (browser c) ++ [reconnectDelay (S n)]).
Proof.
  cbv zeta. repeat split.
  - rewrite attemptReconnect_lt by done. reflexivity.
  - rewrite attemptReconnect_lt by done. reflexivity.
  - apply attemptReconnect_ge.
  - apply reconnectDelay_doubles.
  - apply reconnectDelay_bounds.
  - apply reconnectDelay_bounds.
  - apply attemptReconnect_iter.
  - by apply (run_backoff P evs c).
  - by apply (run_backoff P evs c).
  - by apply (run_backoff P evs c).
  - by apply (run_backoff P evs c).
  - by apply (run_backoff P evs c).
  - unfold close. by rewrite H.
  - unfold close. by rewrite H.
  - unfold close. by rewrite H.
  - intros Hws Hlt. unfold ws_onclose, close. rewrite Hws.
    rewrite attemptReconnect_lt; [reflexivity|exact Hlt].
Qed.

Lemma reconnect_backoff_witness :
  timers (browser (attemptReconnect online)) = [2000%Z] ∧
  timers (browser (ws_onclose 0 (close online))) = [2000%Z] ∧
  attemptReconnect (Nat.iter 5 attemptReconnect online) =
    Nat.iter 5 attemptReconnect online ∧
  firedDelays (w3c "offer" "answer") online (outage 0 1 7) ≡ₚ
    [2000; 4000; 8000; 16000; 30000]%Z ∧
  length (sockets (browser (run (w3c "offer" "answer") online (outage 0 1 7)))) = 6 ∧
  ws (signaling (close online)) = None.
Proof.
  pose proof (reconnect_backoff (w3c "offer" "answer") online 0 0 (outage 0 1 7)) as H.
  cbv zeta in H. destruct H as (H1 & _ & _ & _ & _ & _ & Hrun & Hclose & H7).
  pose proof (reconnect_backoff (w3c "offer" "answer")
                (Nat.iter 5 attemptReconnect online) 0 0 []) as G.
  cbv zeta in G. destruct G as (_ & G2 & _).
  assert (no_open (outage 0 1 7) = true) as Hno by reflexivity.
  destruct (Hrun Hno) as (_ & _ & _ & Hdelays & Hsockets).
  assert (ws (signaling online) = Some 0) as Hws by reflexivity.
  destruct (Hclose Hws) as (Hsig & _ & _).
  split; [|split; [|split; [|split; [|split]]]].
  - apply H1. cbn. lia.
  - apply H7; [reflexivity|cbn; lia].
  - apply G2. cbn. lia.
  - assert (timers (browser (run (w3c "offer" "answer") online (outage 0 1 7))) = [])
      as Hpending by (vm_compute; reflexivity).
    rewrite Hpending, app_nil_r in Hdelays. rewrite Hdelays.
    vm_compute. reflexivity.
  - rewrite Hsockets. vm_compute. reflexivity.
  - rewrite Hsig. reflexivity.
Defined.

(** C9. Skip on the page writes skip and then find-partner, nothing in
    between being asked of the user.  On the server the skip removes the
    pair in both directions, tells the partner partner-left, and neither
    adds the partner to the queue nor takes it out; after the
    find-partner that follows, the skipping id is waiting again, or
    already matched with the id that was waiting.  The partner is in the
    queue afterwards only if it was there before, and it has a partner
    afterwards only if it was itself waiting, by a request of its own,
    and so met the skipper again.  The partner's page, on partner-left,
    writes nothing to the server. *)
Theorem skip_requeues_only_the_skipper
    (P : Platform) (c partner : Client) (h : nat)
    (s : Server.State) (a b : string) :
  Server.reachable s → Server.activePairs s !! a = Some b → truthy b = true →
  (ws (signaling c) = Some h → sockets (browser c) !! h = Some OPEN →
   wire (browser (skipPartner c)) = wire (browser c) ++ [(h, Skip); (h, FindPartner)]) ∧
  (let s1 := (Server.onMessage a Skip s).1 in
   Server.activePairs s1 !! a = None ∧ Server.activePairs s1 !! b = None ∧
   (a ∉ Server.waitingQueue s1) ∧
   (b ∈ Server.waitingQueue s1 ↔ b ∈ Server.waitingQueue s)) ∧
  (Server.clients s !! b = Some OPEN →
   (b, PartnerLeft) ∈ (Server.onMessage a Skip s).2) ∧
  (let s' := (Server.run s [Server.Message a Skip; Server.Message a FindPartner]).1 in
   (a ∈ Server.waitingQueue s' ∨ is_Some (Server.activePairs s' !! a)) ∧
   (b ∈ Server.waitingQueue s' → b ∈ Server.waitingQueue s) ∧
   (Server.activePairs s' !! b = None ∨
    (b ∈ Server.waitingQueue s ∧ Server.activePairs s' !! b = Some a))) ∧
  wire (browser (handleMessage P PartnerLeft partner)) = wire (browser partner) ∧
  partnerId (signaling (handleMessage P PartnerLeft partner)) = None.
Proof.
  intros Hs Hab Hb. split; [|split; [|split; [|split]]].
  - intros Hws Hrs. by apply skipPartner_wire.
  - destruct (ServerFacts.skip_only s a b Hs Hab Hb) as (H1 & H2 & H3 & H4 & _).
    done.
  - intros Hopen. cbn [Server.onMessage]. unfold Server.skip, Server.unpair.
    rewrite Hab, Hb. cbn. unfold Server.sendToClient at 1. rewrite Hopen.
    apply elem_of_app. left. apply list_elem_of_here.
  - by apply ServerFacts.skip_then_find.
  - apply partnerLeft_wire.
Qed.

Lemma skip_requeues_only_the_skipper_witness :
  wire (browser (skipPartner searching)) =
    [(0, FindPartner); (0, Skip); (0, FindPartner)] ∧
  (Server.activePairs
     (Server.onMessage "A" Skip (Server.run Server.init Server.pair_trace).1).1 !! "B"
   = None) ∧
  ("B", PartnerLeft) ∈
    (Server.onMessage "A" Skip (Server.run Server.init Server.pair_trace).1).2 ∧
  ("A" ∈ Server.waitingQueue
     (Server.run (Server.run Server.init Server.pair_trace).1
        [Server.Message "A" Skip; Server.Message "A" FindPartner]).1 ∨
   is_Some (Server.activePairs
     (Server.run (Server.run Server.init Server.pair_trace).1
        [Server.Message "A" Skip; Server.Message "A" FindPartner]).1 !! "A")).
Proof.
  destruct (skip_requeues_only_the_skipper (w3c "offer" "answer") searching searching 0
              (Server.run Server.init Server.pair_trace).1 "A" "B")
    as (Hwire & (_ & Hb & _) & Hleft & (Ha & _) & _).
  - apply ServerFacts.run_reachable, Server.reachable_init.
  - reflexivity.
  - reflexivity.
  - split; [apply Hwire; reflexivity|]. split; [exact Hb|].
    split; [apply Hleft; reflexivity|exact Ha].
Defined.

(** C10. With no socket, or a socket that is not OPEN, [send] returns
    false and leaves the client exactly as it was: the frame is neither
    written nor kept nor scheduled.  [skip] and [disconnect] then only
    clear [partnerId], and they clear it in every case. *)
Theorem send_dropped_when_not_open (c : Client) (message : ClientMsg) :
  (ws (signaling c) = None ∨
   ∃ h, ws (signaling c) = Some h ∧ sockets (browser c) !! h ≠ Some OPEN) →
  send message c = (c, false) ∧
  skip c = set_partnerId None c ∧
  disconnect c = set_partnerId None c ∧
  (∀ c', partnerId (signaling (skip c')) = None ∧
         partnerId (signaling (disconnect c')) = None).
Proof.
  intros H. repeat split.
  - by apply send_not_open.
  - unfold skip. by rewrite send_not_open.
  - unfold disconnect. by rewrite send_not_open.
Qed.

Lemma send_dropped_when_not_open_witness :
  send FindPartner (startChat Granted init) = (startChat Granted init, false) ∧
  send Skip init = (init, false).
Proof.
  split.
  - apply (send_dropped_when_not_open (startChat Granted init) FindPartner).
    right. exists 0. split; [reflexivity|discriminate].
  - apply (send_dropped_when_not_open init Skip). left. reflexivity.
Defined.

End ClientFacts.

(** ** More about the signaling server *)

Module ServerMore.
Import Protocol Server ServerFacts.

(** *** Array helpers *)

(** [indexOf] answers -1 exactly for an absent element, and otherwise the
    position of the first occurrence. *)
Theorem indexOf_first_occurrence (l : list string) (x : string) :
  (indexOf l x = (-1)%Z ↔ x ∉ l) ∧
  (∀ i : nat, indexOf l x = Z.of_nat i ↔
     l !! i = Some x ∧ ∀ j, j < i → l !! j ≠ Some x) ∧
  (-1 ≤ indexOf l x < Z.of_nat (length l))%Z.
Proof.
  unfold indexOf. split; [|split].
  - destruct (list_find _ l) as [[i y]|] eqn:Hf.
    + apply list_find_Some in Hf as (Hi & -> & _).
      split; [lia|]. intros Hx. destruct Hx. by eapply list_elem_of_lookup_2.
    + split; [|done]. intros _ Hx.
      apply list_find_None in Hf. rewrite Forall_forall in Hf. by apply (Hf x).
  - intros i. destruct (list_find _ l) as [[k y]|] eqn:Hf.
    + apply list_find_Some in Hf as (Hk & -> & Hmin). split.
      * intros Hki. apply Nat2Z.inj in Hki as <-. split; [done|].
        intros j Hj Hlj. by apply (Hmin j x).
      * intros [Hi Hbefore]. f_equal.
        destruct (Nat.lt_trichotomy k i) as [Hlt|[->|Hgt]]; [|done|].
        -- by destruct (Hbefore k Hlt).
        -- by destruct (Hmin i x Hi Hgt).
    + split; [lia|]. intros [Hi _]. exfalso.
      apply list_find_None in Hf. rewrite Forall_forall in Hf.
      apply (Hf x); [by eapply list_elem_of_lookup_2|done].
  - destruct (list_find _ l) as [[i y]|] eqn:Hf; [|lia].
    apply list_find_Some in Hf as (Hi & _). apply lookup_lt_Some in Hi. lia.
Qed.

(** [removeFromQueue] takes out the first occurrence and nothing else,
    keeping the order of the rest; an absent id leaves the queue alone. *)
Theorem removeFromQueue_first_occurrence (userId : string) (before after : list string) :
  userId ∉ before →
  removeFromQueue userId (before ++ userId :: after) = before ++ after ∧
  removeFromQueue userId before = before.
Proof.
  intros Hb. split; [|by apply removeFromQueue_absent].
  induction before as [|x before IH]; cbn [app].
  - rewrite removeFromQueue_cons. by destruct (decide (userId = userId)).
  - apply not_elem_of_cons in Hb as [Hne Hb].
    rewrite removeFromQueue_cons.
    destruct (decide (x = userId)); [congruence|]. by rewrite IH.
Qed.

Lemma removeFromQueue_first_occurrence_witness :
  removeFromQueue "B" (["A"] ++ "B" :: ["C"; "B"]) = ["A"] ++ ["C"; "B"].
Proof.
  apply (removeFromQueue_first_occurrence "B" ["A"] ["C"; "B"]).
  apply not_elem_of_cons. split; [discriminate|apply not_elem_of_nil].
Defined.


Lemma removeFromQueue_elem_of_ne userId c q :
  c ≠ userId → c ∈ removeFromQueue userId q ↔ c ∈ q.
Proof.
  intros Hne. split; [apply removeFromQueue_elem_of|].
  induction q as [|x q IH]; [done|].
  rewrite removeFromQueue_cons, elem_of_cons.
  destruct (decide (x = userId)) as [->|Hx].
  - by intros [?|?].
  - rewrite elem_of_cons. intros [->|Hc]; [by left|right; by apply IH].
Qed.

Lemma sendToClient_elem u m clientId message s :
  (u, m) ∈ sendToClient clientId message s →
  u = clientId ∧ m = message ∧ clients s !! clientId = Some OPEN.
Proof.
  unfold sendToClient.
  destruct (clients s !! clientId) as [[]|]; intros H;
    try by apply elem_of_nil in H.
  apply list_elem_of_singleton in H. by injection H as -> ->.
Qed.

Lemma sendToClient_open clientId message s :
  clients s !! clientId = Some OPEN →
  sendToClient clientId message s = [(clientId, message)].
Proof. intros H. unfold sendToClient. by rewrite H. Qed.

Lemma findPartner_clients userId s : clients (findPartner userId s).1 = clients s.
Proof.
  unfold findPartner. destruct (negb _); [|done].
  destruct (dequeueTwo _) as [[[u1 u2] rest]|]; done.
Qed.

(** *** Invariants *)

(** At most one id is ever waiting: a second one is matched at once. *)
Theorem at_most_one_waiting (s : State) :
  reachable s → length (waitingQueue s) ≤ 1 ∧ NoDup (waitingQueue s).
Proof. intros Hs. split; [by apply queue_short|by apply queue_NoDup]. Qed.

Lemma at_most_one_waiting_witness :
  length (waitingQueue (run init third_party_trace).1) ≤ 1.
Proof.
  apply (at_most_one_waiting (run init third_party_trace).1).
  apply run_reachable, reachable_init.
Defined.

(** No id is ever registered as its own partner. *)
Theorem never_own_partner (s : State) (a : string) :
  reachable s → partnerOf s a ≠ Some a.
Proof. intros Hs. by apply no_self_pair. Qed.

Lemma never_own_partner_witness :
  partnerOf (run init third_party_trace).1 "A" ≠ Some "A".
Proof.
  apply (never_own_partner (run init third_party_trace).1 "A").
  apply run_reachable, reachable_init.
Defined.

(** While nobody asks for a partner when already paired, partners name
    each other and no id is both waiting and paired. *)
Theorem polite_registry_coherent (s : State) (a b : string) :
  reachable_polite s →
  (partnerOf s a = Some b → partnerOf s b = Some a) ∧
  (a ∈ waitingQueue s → partnerOf s a = None).
Proof.
  intros Hs. destruct (polite_coherent s Hs) as [Hsym Hdis].
  split; [apply Hsym|apply Hdis].
Qed.

Lemma run_polite evs : ∀ s,
  reachable_polite s → all_polite s evs = true →
  reachable_polite (run s evs).1.
Proof.
  induction evs as [|e evs IH]; intros s Hs Hok; [done|].
  cbn [all_polite] in Hok. apply andb_true_iff in Hok as [He Hok].
  cbn [run]. pose proof (reachable_polite_step s e Hs He) as H1.
  destruct (step s e) as [s1 out1]. specialize (IH s1 H1 Hok).
  by destruct (run s1 evs) as [s2 out2].
Qed.

Lemma polite_registry_coherent_witness :
  partnerOf (run init pair_trace).1 "B" = Some "A".
Proof.
  apply (polite_registry_coherent (run init pair_trace).1 "A" "B").
  - apply run_polite; [apply reachable_polite_init|reflexivity].
  - reflexivity.
Defined.


(** *** The pair count of the health endpoint *)

Lemma unpair_size_even userId s :
  coherent s → (∀ a, activePairs s !! a ≠ Some a) →
  Nat.Even (size (activePairs s)) →
  Nat.Even (size (activePairs (unpair userId s).1)).
Proof.
  intros [Hsym _] Hirr Hev. unfold unpair.
  destruct (activePairs s !! userId) as [p|] eqn:Hp; [|done].
  destruct (truthy p); [|done]. cbn.
  assert (p ≠ userId) as Hne by (intros ->; by apply (Hirr userId)).
  rewrite map_size_delete_Some.
  2:{ exists p. by rewrite lookup_delete_ne. }
  rewrite map_size_delete_Some by (exists userId; by apply Hsym).
  destruct Hev as [m Hm]. rewrite Hm.
  destruct m as [|m]; [by exists 0|]. exists m. simpl. lia.
Qed.

Lemma polite_size_even s :
  reachable_polite s → Nat.Even (size (activePairs s)).
Proof.
  induction 1 as [|s e Hs IH Hpol]; [by exists 0|].
  pose proof (reachable_polite_reachable s Hs) as Hr.
  pose proof (polite_coherent s Hs) as Hc.
  pose proof (no_self_pair s Hr) as Hirr.
  pose proof (queue_short s Hr) as Hlen.
  destruct e as [u|u m|u|u|u|u rs]; cbn [step]; try done.
  - destruct m; cbn [onMessage]; rewrite ?relay_state, ?skip_pairs; try done.
    + cbn in Hpol. apply bool_decide_eq_true in Hpol.
      destruct (waitingQueue s) as [|x [|y q]] eqn:Hq; [| |simpl in Hlen; lia].
      * by rewrite findPartner_first.
      * destruct (decide (u = x)) as [->|Hne].
        -- rewrite findPartner_queued; [done|]. rewrite Hq. apply list_elem_of_here.
        -- rewrite (findPartner_second u x []); [|done|].
           2:{ apply not_elem_of_cons; split; [done|apply not_elem_of_nil]. }
           cbn. destruct Hc as [_ Hdis].
           assert (activePairs s !! x = None) as Hx.
           { apply Hdis. rewrite Hq. apply list_elem_of_here. }
           rewrite map_size_insert_None by (by rewrite lookup_insert_ne).
           rewrite map_size_insert_None by done.
           destruct IH as [k Hk]. exists (S k). lia.
    + by apply unpair_size_even.
    + by apply unpair_size_even.
  - rewrite handleDisconnect_pairs. by apply unpair_size_even.
  - rewrite handleDisconnect_pairs. by apply unpair_size_even.
  - by destruct (clients s !! u).
Qed.

(** While nobody asks for a partner when already paired, the registry
    has two entries per pair, so the [activePairs] figure of the health
    endpoint is a whole number; the two other figures are the sizes of
    the client registry and of the queue. *)
Theorem health_counts_whole_pairs (s : State) :
  reachable_polite s →
  ∃ pairs : nat,
    size (activePairs s) = 2 * pairs ∧
    QArith_base.Qeq (health_activePairs (health s))
                    (QArith_base.inject_Z (Z.of_nat pairs)) ∧
    health_waiting (health s) ≤ 1.
Proof.
  intros Hs. destruct (polite_size_even s Hs) as [k Hk]. exists k.
  split; [done|]. split.
  - unfold health, QArith_base.Qeq. cbn. rewrite Hk. lia.
  - cbn. by apply queue_short, reachable_polite_reachable.
Qed.

Lemma health_counts_whole_pairs_witness :
  ∃ pairs : nat, size (activePairs (run init pair_trace).1) = 2 * pairs.
Proof.
  destruct (health_counts_whole_pairs (run init pair_trace).1) as (k & Hk & _).
  - apply run_polite; [apply reachable_polite_init|reflexivity].
  - by exists k.
Defined.


Lemma sendToClient_ext clientId message s t :
  clients s = clients t → sendToClient clientId message s = sendToClient clientId message t.
Proof. intros H. unfold sendToClient. by rewrite H. Qed.

Lemma handleDisconnect_sent userId s :
  (handleDisconnect userId s).2 = (unpair userId s).2.
Proof.
  unfold handleDisconnect, unpair. cbn [activePairs set_waitingQueue].
  destruct (activePairs s !! userId) as [p|]; [|done]. by destruct (truthy p).
Qed.

Lemma skip_sent userId s :
  (skip userId s).2 = (unpair userId s).2 ++ sendToClient userId Disconnected s.
Proof.
  unfold skip. pose proof (unpair_clients userId s) as Hc.
  destruct (unpair userId s) as [s1 out]. cbn in *. f_equal.
  by apply sendToClient_ext.
Qed.

(** *** Who is written to *)

Lemma unpair_sent u m userId s :
  (u, m) ∈ (unpair userId s).2 →
  clients s !! u = Some OPEN ∧ m = PartnerLeft ∧ activePairs s !! userId = Some u.
Proof.
  unfold unpair. destruct (activePairs s !! userId) as [p|]; cbn;
    [|intros H; by apply elem_of_nil in H].
  destruct (truthy p); cbn; [|intros H; by apply elem_of_nil in H].
  intros H. apply sendToClient_elem in H as (-> & -> & Hopen). done.
Qed.

(** Apart from the greeting of a new connection, which goes out on the
    socket just accepted, the server only ever writes to a registered
    client whose socket is OPEN. *)
Theorem writes_only_to_open_sockets (s : State) (e : Event) (u : string) (m : ServerMsg) :
  (u, m) ∈ (step s e).2 →
  clients s !! u = Some OPEN ∨ (e = Connection u ∧ m = Connected u).
Proof.
  destruct e as [v|v msg|v|v|v|v rs]; cbn [step].
  - cbn. intros H. apply list_elem_of_singleton in H. injection H as -> ->. by right.
  - intros H. left. destruct msg; cbn [onMessage] in H.
    + unfold findPartner in H. destruct (negb _); [|by apply elem_of_nil in H].
      destruct (dequeueTwo _) as [[[u1 u2] rest]|]; cbn in H.
      * apply elem_of_app in H as [H|H]; by apply sendToClient_elem in H as (-> & _ & H).
      * by apply sendToClient_elem in H as (-> & _ & H).
    + unfold relay in H. destruct (activePairs s !! v) as [p|]; [destruct (truthy p)|];
        cbn in H; try by apply elem_of_nil in H.
      by apply sendToClient_elem in H as (-> & _ & H).
    + unfold relay in H. destruct (activePairs s !! v) as [p|]; [destruct (truthy p)|];
        cbn in H; try by apply elem_of_nil in H.
      by apply sendToClient_elem in H as (-> & _ & H).
    + unfold relay in H. destruct (activePairs s !! v) as [p|]; [destruct (truthy p)|];
        cbn in H; try by apply elem_of_nil in H.
      by apply sendToClient_elem in H as (-> & _ & H).
    + unfold skip in H. pose proof (unpair_sent u m v s) as Hu.
      pose proof (unpair_clients v s) as Hc.
      destruct (unpair v s) as [s1 out]. cbn in *.
      apply elem_of_app in H as [H|H]; [by apply Hu|].
      apply sendToClient_elem in H as (-> & _ & H). cbn in H. by rewrite <- Hc.
    + unfold skip in H. pose proof (unpair_sent u m v s) as Hu.
      pose proof (unpair_clients v s) as Hc.
      destruct (unpair v s) as [s1 out]. cbn in *.
      apply elem_of_app in H as [H|H]; [by apply Hu|].
      apply sendToClient_elem in H as (-> & _ & H). cbn in H. by rewrite <- Hc.
    + by apply elem_of_nil in H.
  - intros H. by apply elem_of_nil in H.
  - intros H. left. unfold handleDisconnect in H.
    pose proof (unpair_sent u m v
      (set_waitingQueue (removeFromQueue v (waitingQueue s)) s)) as Hu.
    destruct (unpair v _) as [s2 out]. cbn in *. by apply Hu.
  - intros H. left. unfold handleDisconnect in H.
    pose proof (unpair_sent u m v
      (set_waitingQueue (removeFromQueue v (waitingQueue s)) s)) as Hu.
    destruct (unpair v _) as [s2 out]. cbn in *. by apply Hu.
  - intros H. destruct (clients s !! v); by apply elem_of_nil in H.
Qed.


Lemma writes_only_to_open_sockets_witness :
  clients (run init [Connection "A"]).1 !! "A" = Some OPEN ∨
  (Message "A" FindPartner = Connection "A" ∧ Waiting = Connected "A").
Proof.
  apply (writes_only_to_open_sockets (run init [Connection "A"]).1
           (Message "A" FindPartner) "A" Waiting).
  vm_compute. apply list_elem_of_here.
Defined.

(** *** Relaying *)

(** A negotiation message from a paired sender never changes the server
    state; it is forwarded with its payload untouched and the sender's id
    attached, to the partner alone, and only if the partner is registered
    with an OPEN socket; otherwise nothing is written. *)
Theorem relay_forwards_to_partner (s : State) (userId partnerId : string) (payload : Payload) :
  activePairs s !! userId = Some partnerId → truthy partnerId = true →
  (clients s !! partnerId = Some OPEN →
   onMessage userId (Offer payload) s = (s, [(partnerId, OfferFrom payload userId)]) ∧
   onMessage userId (Answer payload) s = (s, [(partnerId, AnswerFrom payload userId)]) ∧
   onMessage userId (IceCandidate payload) s =
     (s, [(partnerId, IceCandidateFrom payload userId)])) ∧
  (clients s !! partnerId ≠ Some OPEN →
   onMessage userId (Offer payload) s = (s, []) ∧
   onMessage userId (Answer payload) s = (s, []) ∧
   onMessage userId (IceCandidate payload) s = (s, [])).
Proof.
  intros Hp Ht. cbn [onMessage]. unfold relay. rewrite Hp, Ht. split.
  - intros Hopen. by rewrite !sendToClient_open.
  - intros Hclosed. unfold sendToClient.
    destruct (clients s !! partnerId) as [[]|]; done.
Qed.

Lemma relay_forwards_to_partner_witness :
  onMessage "A" (Offer (Some "sdp")) (run init pair_trace).1 =
    ((run init pair_trace).1, [("B", OfferFrom (Some "sdp") "A")]) ∧
  onMessage "A" (Offer (Some "sdp"))
    (run init (pair_trace ++ [SocketState "B" CLOSING])).1 =
    ((run init (pair_trace ++ [SocketState "B" CLOSING])).1, []).
Proof.
  split.
  - apply (relay_forwards_to_partner (run init pair_trace).1 "A" "B" (Some "sdp"));
      reflexivity.
  - apply (relay_forwards_to_partner
             (run init (pair_trace ++ [SocketState "B" CLOSING])).1 "A" "B" (Some "sdp"));
      [reflexivity|reflexivity|]. vm_compute. discriminate.
Defined.

(** No message of any kind registers or unregisters a client or touches
    a socket state: the client registry changes on connection, close and
    error only. *)
Theorem messages_keep_clients (s : State) (userId : string) (message : ClientMsg) :
  clients (onMessage userId message s).1 = clients s ∧
  clients (step s (Garbage userId)).1 = clients s.
Proof.
  split; [|done].
  destruct message; cbn [onMessage];
    rewrite ?relay_state, ?skip_clients, ?findPartner_clients; done.
Qed.

(** *** Leaving *)

(** When the socket of a paired client closes, the server writes exactly
    one frame, partner-left to the partner.  The client is then gone from
    the registry, the queue and the pair registry; its partner is
    unpaired and still registered, and it is in the queue afterwards
    exactly if it was there before: the server neither adds it nor takes
    it out. *)
Theorem close_releases_both (s : State) (a b : string) :
  reachable s → activePairs s !! a = Some b → truthy b = true →
  clients s !! b = Some OPEN →
  (handleDisconnect a s).2 = [(b, PartnerLeft)] ∧
  let s' := (handleDisconnect a s).1 in
  clients s' !! a = None ∧ (a ∉ waitingQueue s') ∧ activePairs s' !! a = None ∧
  activePairs s' !! b = None ∧ (b ∈ waitingQueue s' ↔ b ∈ waitingQueue s) ∧
  clients s' !! b = Some OPEN.
Proof.
  intros Hs Hab Hb Hopen.
  assert (a ≠ b) as Hne by (intros ->; by apply (no_self_pair s Hs b)).
  split.
  - unfold handleDisconnect, unpair. cbn [activePairs set_waitingQueue].
    rewrite Hab, Hb. cbn. unfold sendToClient. cbn. by rewrite Hopen.
  - cbv zeta.
    rewrite handleDisconnect_clients, handleDisconnect_queue, handleDisconnect_pairs.
    unfold unpair. rewrite Hab, Hb. cbn.
    split; [apply lookup_delete_eq|].
    split; [apply removeFromQueue_NoDup; by apply queue_NoDup|].
    split; [apply lookup_delete_eq|].
    split; [by rewrite lookup_delete_ne, lookup_delete_eq|].
    split; [by apply removeFromQueue_elem_of_ne|].
    by rewrite lookup_delete_ne.
Qed.

Lemma close_releases_both_witness :
  (handleDisconnect "A" (run init pair_trace).1).2 = [("B", PartnerLeft)].
Proof.
  apply (close_releases_both (run init pair_trace).1 "A" "B").
  - apply run_reachable, reachable_init.
  - reflexivity.
  - reflexivity.
  - reflexivity.
Defined.

(** Skip, disconnect and close concern the sender and its partner only:
    any other id keeps its registry entry, its pair entry and its place
    in or out of the queue, and is written nothing. *)
Theorem leaving_spares_bystanders (s : State) (userId c : string) :
  c ≠ userId → activePairs s !! userId ≠ Some c →
  (let s' := (skip userId s).1 in
   clients s' !! c = clients s !! c ∧ activePairs s' !! c = activePairs s !! c ∧
   (c ∈ waitingQueue s' ↔ c ∈ waitingQueue s) ∧
   ∀ m, (c, m) ∉ (skip userId s).2) ∧
  (let s' := (handleDisconnect userId s).1 in
   clients s' !! c = clients s !! c ∧ activePairs s' !! c = activePairs s !! c ∧
   (c ∈ waitingQueue s' ↔ c ∈ waitingQueue s) ∧
   ∀ m, (c, m) ∉ (handleDisconnect userId s).2).
Proof.
  intros Hne Hnp. cbv zeta.
  assert (activePairs (unpair userId s).1 !! c = activePairs s !! c) as Hpairs.
  { unfold unpair. destruct (activePairs s !! userId) as [p|] eqn:Hp; [|done].
    destruct (truthy p); [|done]. cbn.
    rewrite !lookup_delete_ne; [done|congruence|congruence]. }
  assert (∀ m, (c, m) ∉ (unpair userId s).2) as Hout.
  { intros m H. apply unpair_sent in H as (_ & _ & H). congruence. }
  split.
  - rewrite skip_clients, skip_pairs, skip_queue.
    split; [done|]. split; [done|]. split; [by apply removeFromQueue_elem_of_ne|].
    intros m H. rewrite skip_sent in H.
    apply elem_of_app in H as [H|H]; [by apply (Hout m) in H|].
    apply sendToClient_elem in H as (? & _). done.
  - rewrite handleDisconnect_clients, handleDisconnect_pairs, handleDisconnect_queue.
    split; [by rewrite lookup_delete_ne|]. split; [done|].
    split; [by apply removeFromQueue_elem_of_ne|].
    intros m H. rewrite handleDisconnect_sent in H. by apply (Hout m) in H.
Qed.

Lemma leaving_spares_bystanders_witness :
  activePairs (handleDisconnect "C" (run init third_party_trace).1).1 !! "B" =
  activePairs (run init third_party_trace).1 !! "B".
Proof.
  destruct (leaving_spares_bystanders (run init third_party_trace).1 "C" "B")
    as [_ (_ & H & _)]; [discriminate|vm_compute; discriminate|exact H].
Defined.


(** *** Asking *)

(** Two clients with open sockets asking one after the other on an empty
    queue are told, in this order: waiting (the first), paired with the
    second (the first), paired with the first (the second).  One pair is
    made, the queue is empty again, and nothing else changes. *)
Theorem two_requests_make_one_pair (s : State) (a b : string) :
  waitingQueue s = [] → a ≠ b →
  clients s !! a = Some OPEN → clients s !! b = Some OPEN →
  run s [Message a FindPartner; Message b FindPartner] =
    ({| clients := clients s; waitingQueue := [];
        activePairs := <[b := a]> (<[a := b]> (activePairs s)) |},
     [(a, Waiting); (a, Paired b); (b, Paired a)]).
Proof.
  intros Hq Hne Ha Hb. cbn [run step onMessage].
  rewrite (findPartner_first a s Hq).
  rewrite (findPartner_second b a []); [|done|].
  2:{ apply not_elem_of_cons; split; [done|apply not_elem_of_nil]. }
  cbn [app pairUsers]. unfold sendToClient. cbn. by rewrite Ha, Hb.
Qed.

Lemma two_requests_make_one_pair_witness :
  (run (run init three_trace).1
     [Message "P2" FindPartner; Message "P3" FindPartner]).2 =
  [("P2", Waiting); ("P2", Paired "P3"); ("P3", Paired "P2")].
Proof.
  rewrite (two_requests_make_one_pair (run init three_trace).1 "P2" "P3");
    [reflexivity|reflexivity|discriminate|reflexivity|reflexivity].
Defined.

(** A request for a partner is never lost: whatever the reachable state,
    after a find-partner the sender is waiting or has a partner. *)
Theorem request_never_lost (s : State) (userId : string) :
  reachable s →
  let s' := (onMessage userId FindPartner s).1 in
  userId ∈ waitingQueue s' ∨ is_Some (partnerOf s' userId).
Proof.
  intros Hs. cbv zeta. cbn [onMessage]. unfold partnerOf.
  pose proof (queue_short s Hs) as Hlen.
  destruct (waitingQueue s) as [|x [|y q]] eqn:Hq; [| |simpl in Hlen; lia].
  - rewrite findPartner_first by done. left. apply list_elem_of_here.
  - destruct (decide (userId = x)) as [->|Hne].
    + rewrite findPartner_queued; [|rewrite Hq; apply list_elem_of_here].
      left. cbn. rewrite Hq. apply list_elem_of_here.
    + rewrite (findPartner_second userId x []); [|done|].
      2:{ apply not_elem_of_cons; split; [done|apply not_elem_of_nil]. }
      right. cbn. rewrite lookup_insert_eq. by eexists.
Qed.

Lemma request_never_lost_witness :
  "C" ∈ waitingQueue (onMessage "C" FindPartner (run init pair_trace).1).1 ∨
  is_Some (partnerOf (onMessage "C" FindPartner (run init pair_trace).1).1 "C").
Proof.
  apply (request_never_lost (run init pair_trace).1 "C").
  apply run_reachable, reachable_init.
Defined.

(** *** Round trips *)

(** A client that connects and goes away without a word leaves the
    server exactly as it was; only the greeting was written. *)
Theorem connect_then_close_leaves_no_trace (s : State) (userId : string) :
  clients s !! userId = None → (userId ∉ waitingQueue s) →
  activePairs s !! userId = None →
  run s [Connection userId; Close userId] = (s, [(userId, Connected userId)]).
Proof.
  intros Hc Hq Hp. cbn [run step]. unfold onConnection, handleDisconnect, unpair.
  cbn. rewrite Hp, removeFromQueue_absent by done. cbn.
  rewrite delete_insert_id by done. by destruct s.
Qed.

Lemma connect_then_close_leaves_no_trace_witness :
  run (run init pair_trace).1 [Connection "C"; Close "C"] =
    ((run init pair_trace).1, [("C", Connected "C")]).
Proof.
  apply (connect_then_close_leaves_no_trace (run init pair_trace).1 "C").
  - reflexivity.
  - replace (waitingQueue (run init pair_trace).1) with (@nil string) by reflexivity.
    apply not_elem_of_nil.
  - reflexivity.
Defined.

(** A client that asks for a partner on an empty queue and then skips
    (or disconnects) before anyone else asks leaves the server exactly
    as it was, having been told waiting and then disconnected. *)
Theorem wait_then_skip_leaves_no_trace (s : State) (userId : string) (m : ClientMsg) :
  waitingQueue s = [] → activePairs s !! userId = None →
  clients s !! userId = Some OPEN → m ∈ [Skip; Disconnect] →
  run s [Message userId FindPartner; Message userId m] =
    (s, [(userId, Waiting); (userId, Disconnected)]).
Proof.
  intros Hq Hp Hc Hm.
  assert (∀ t, onMessage userId m t = skip userId t) as Hskip.
  { intros t. apply elem_of_cons in Hm as [->|Hm]; [done|].
    apply elem_of_cons in Hm as [->|Hm]; [done|]. by apply elem_of_nil in Hm. }
  cbn [run step]. change (onMessage userId FindPartner s) with (findPartner userId s).
  rewrite (findPartner_first userId s Hq), Hskip.
  unfold skip, unpair. cbn [activePairs set_waitingQueue]. rewrite Hp.
  cbn [waitingQueue set_waitingQueue].
  rewrite removeFromQueue_cons. destruct (decide (userId = userId)); [|done].
  unfold sendToClient. cbn. rewrite Hc. cbn. f_equal.
  rewrite <- Hq. by destruct s.
Qed.

Lemma wait_then_skip_leaves_no_trace_witness :
  run (run init three_trace).1 [Message "P1" FindPartner; Message "P1" Skip] =
    ((run init three_trace).1, [("P1", Waiting); ("P1", Disconnected)]).
Proof.
  apply (wait_then_skip_leaves_no_trace (run init three_trace).1 "P1" Skip).
  - reflexivity.
  - reflexivity.
  - reflexivity.
  - apply list_elem_of_here.
Defined.

End ServerMore.

(** ** More about the browser client *)

Module ClientMore.
Import Protocol Client ClientFacts.

(** *** Sockets that are not open *)

Lemma close_ws c : ws (signaling (close c)) = None.
Proof. unfold close. by destruct (ws (signaling c)) eqn:H. Qed.

(** Once [close()] has run, or Stop has been pressed, nothing can be
    sent for as long as no socket opens: whatever else happens (close and
    error events, timers firing and connecting, frames, button presses),
    every [send] returns false and writes nothing.  Closing again changes
    nothing. *)
Theorem nothing_sent_after_close
    (P : Platform) (c : Client) (message : ClientMsg) (evs : list Event) :
  no_open evs = true →
  send message (run P (close c) evs) = (run P (close c) evs, false) ∧
  send message (run P (stopChat c) evs) = (run P (stopChat c) evs, false) ∧
  close (close c) = close c.
Proof.
  intros Hno. split; [|split].
  - apply send_not_open, isConnected_false, run_offline; [done|].
    apply close_offline_any.
  - apply send_not_open, isConnected_false, run_offline; [done|].
    unfold stopChat, cleanup.
    change (isConnected (setStatus StDisconnected ?x)) with (isConnected x).
    apply close_offline_any.
  - unfold close at 1. by rewrite close_ws.
Qed.

Lemma nothing_sent_after_close_witness :
  send FindPartner (run (w3c "offer" "answer") (stopChat searching)
                      [SocketClose 0; TimerFired 0; ClickSkip]) =
    (run (w3c "offer" "answer") (stopChat searching)
       [SocketClose 0; TimerFired 0; ClickSkip], false).
Proof.
  apply (nothing_sent_after_close (w3c "offer" "answer") searching FindPartner
           [SocketClose 0; TimerFired 0; ClickSkip]).
  reflexivity.
Defined.

Lemma connect_socket c :
  ws (signaling (connect c)) = Some (length (sockets (browser c))) ∧
  sockets (browser (connect c)) !! length (sockets (browser c)) = Some CONNECTING.
Proof. split; [done|]. cbn. by apply list_lookup_middle. Qed.

(** The socket [connect()] has just made is CONNECTING, so a [send] right
    after it is dropped.  That is where [startChat] calls [findPartner]:
    whatever the camera prompt answered, [startChat] writes no frame. *)
Theorem send_right_after_connect_dropped (c : Client) (message : ClientMsg) (media : MediaResult) :
  send message (connect c) = (connect c, false) ∧
  wire (browser (startChat media c)) = wire (browser c) ∧
  isConnected (startChat Granted c) = false.
Proof.
  split; [|split].
  - apply send_not_open. right. destruct (connect_socket c) as [Hws Hrs].
    eexists. split; [exact Hws|]. by rewrite Hrs.
  - destruct media; try done.
    unfold startChat, findPartner.
    set (c1 := set_localStream true (setStatus StInitializing (setError None c))).
    assert (send FindPartner (connect c1) = (connect c1, false)) as ->; [|done].
    apply send_not_open. right. destruct (connect_socket c1) as [Hws Hrs].
    eexists. split; [exact Hws|]. by rewrite Hrs.
  - unfold startChat, findPartner.
    set (c1 := set_localStream true (setStatus StInitializing (setError None c))).
    assert (send FindPartner (connect c1) = (connect c1, false)) as ->.
    { apply send_not_open. right. destruct (connect_socket c1) as [Hws Hrs].
      eexists. split; [exact Hws|]. by rewrite Hrs. }
    cbn [fst]. unfold isConnected. destruct (connect_socket c1) as [-> ->].
    by apply bool_decide_eq_false_2.
Qed.

(** *** What makes the client write *)

(** Of the frames the server sends, only paired and offer ever make the
    client write to its socket; all others leave the wire, the sockets
    and the timers alone. *)
Theorem only_paired_and_offer_write (P : Platform) (c : Client) (message : ServerMsg) :
  (∀ p, message ≠ Paired p) → (∀ offer from, message ≠ OfferFrom offer from) →
  browser (handleMessage P message c) = browser c.
Proof.
  intros Hp Ho. destruct message as [uid| |p|offer from|answer from|cand from| |];
    try done.
  - by destruct (Hp p).
  - by destruct (Ho offer from).
Qed.

Lemma only_paired_and_offer_write_witness :
  browser (handleMessage (w3c "offer" "answer") (AnswerFrom (Some "sdp") "B") searching) =
  browser searching.
Proof.
  apply (only_paired_and_offer_write (w3c "offer" "answer") searching
           (AnswerFrom (Some "sdp") "B")); discriminate.
Defined.

(** Candidates handed to [sendIceCandidate] while the socket is open go
    out one frame each, at once and in the order handed over. *)
Theorem local_candidates_trickle_in_order (c : Client) (h : nat) (candidates : list string) :
  ws (signaling c) = Some h → sockets (browser c) !! h = Some OPEN →
  wire (browser (foldl (λ c' cand, sendIceCandidate cand c') c candidates)) =
    wire (browser c) ++ ((λ cand, (h, IceCandidate (Some cand))) <$> candidates).
Proof.
  revert c. induction candidates as [|cand candidates IH]; intros c Hws Hrs.
  - cbn. by rewrite app_nil_r.
  - cbn [foldl fmap list_fmap]. unfold sendIceCandidate at 2.
    rewrite (send_open _ c h) by done. cbn [fst].
    rewrite IH by done. cbn. by rewrite <- app_assoc.
Qed.

Lemma local_candidates_trickle_in_order_witness :
  wire (browser (foldl (λ c' cand, sendIceCandidate cand c') searching ["c1"; "c2"])) =
  wire (browser searching) ++ [(0, IceCandidate (Some "c1")); (0, IceCandidate (Some "c2"))].
Proof.
  apply (local_candidates_trickle_in_order searching 0 ["c1"; "c2"]); reflexivity.
Defined.

(** *** Negotiating *)

(** The responder's side, with a browser that follows the W3C rules and
    no peer connection yet: an offer that arrives on an open socket is
    taken as the remote description and answered, and exactly one answer
    frame is written.  An offer frame without a payload writes nothing
    and shows the connection error. *)
Theorem responder_answers_offer (o a sdp from : string) (c : Client) (h : nat) :
  ws (signaling c) = Some h → sockets (browser c) !! h = Some OPEN →
  peerConnection (webrtc c) = None →
  let P := w3c o a in
  let c' := handleMessage P (OfferFrom (Some sdp) from) c in
  wire (browser c') = wire (browser c) ++ [(h, Answer (Some a))] ∧
  peerConnection (webrtc c') = Some (mkPC (Some a) (Some sdp) []) ∧
  isInitiator (app c') = false ∧
  let c0 := handleMessage P (OfferFrom None from) c in
  wire (browser c0) = wire (browser c) ∧
  error (app c0) = Some "Failed to establish connection".
Proof.
  intros Hws Hrs Hpc. cbv zeta. cbn [handleMessage]. unfold onOffer, createAnswer.
  destruct c as [ap [pc ls] sg br]. cbn in Hws, Hrs, Hpc. subst pc.
  cbn. unfold sendAnswer, send. cbn. by rewrite Hws, Hrs.
Qed.

Lemma responder_answers_offer_witness :
  wire (browser (handleMessage (w3c "offerB" "answerB") (OfferFrom (Some "offerA") "A")
                   searching)) =
  wire (browser searching) ++ [(0, Answer (Some "answerB"))].
Proof.
  apply (responder_answers_offer "offerB" "answerB" "offerA" "A" searching 0);
    reflexivity.
Defined.

Lemma receiveCandidates_browser P from candidates : ∀ c,
  browser (receiveCandidates P from candidates c) = browser c.
Proof.
  induction candidates as [|cand candidates IH]; intros c; [done|].
  by rewrite receiveCandidates_cons, IH.
Qed.

(** The initiator's side, with the same browser and an open socket,
    starting without a peer connection: paired creates one and writes
    the offer; the answer becomes the remote description and writes
    nothing; the candidates that follow are applied in order. *)
Theorem initiator_completes
    (o a answer partner : string) (c : Client) (h : nat) (candidates : list Payload) :
  ws (signaling c) = Some h → sockets (browser c) !! h = Some OPEN →
  peerConnection (webrtc c) = None →
  let P := w3c o a in
  let c1 := handleMessage P (Paired partner) c in
  let c2 := handleMessage P (AnswerFrom (Some answer) partner) c1 in
  let c3 := receiveCandidates P partner candidates c2 in
  wire (browser c1) = wire (browser c) ++ [(h, Offer (Some o))] ∧
  peerConnection (webrtc c1) = Some (mkPC (Some o) None []) ∧
  peerConnection (webrtc c2) = Some (mkPC (Some o) (Some answer) []) ∧
  applied c3 = omap id candidates ∧
  wire (browser c3) = wire (browser c1).
Proof.
  intros Hws Hrs Hpc. cbv zeta.
  set (c1 := handleMessage (w3c o a) (Paired partner) c).
  assert (wire (browser c1) = wire (browser c) ++ [(h, Offer (Some o))] ∧
          peerConnection (webrtc c1) = Some (mkPC (Some o) None [])) as [Hw1 Hpc1].
  { unfold c1. cbn [handleMessage]. unfold onPaired, createOffer, ensurePeerConnection.
    destruct c as [ap [pc ls] sg br]. cbn in Hws, Hrs, Hpc. subst pc. cbn.
    unfold sendOffer, send. cbn. by rewrite Hws, Hrs. }
  set (c2 := handleMessage (w3c o a) (AnswerFrom (Some answer) partner) c1).
  assert (peerConnection (webrtc c2) = Some (mkPC (Some o) (Some answer) []) ∧
          browser c2 = browser c1) as [Hpc2 Hb2].
  { unfold c2. cbn [handleMessage]. unfold onAnswer, handleAnswer.
    rewrite Hpc1. done. }
  split; [done|]. split; [done|]. split; [done|].
  assert (hasRemoteDescription c2 = true) as Hrd.
  { unfold hasRemoteDescription. rewrite Hpc2. done. }
  split.
  - rewrite receiveCandidates_remote by done. unfold applied. by rewrite Hpc2.
  - by rewrite receiveCandidates_browser, Hb2.
Qed.

Lemma initiator_completes_witness :
  applied (receiveCandidates (w3c "offerA" "answerA") "B" [Some "c1"; Some "c2"]
             (handleMessage (w3c "offerA" "answerA") (AnswerFrom (Some "answerB") "B")
                (handleMessage (w3c "offerA" "answerA") (Paired "B") searching))) =
  ["c1"; "c2"].
Proof.
  apply (initiator_completes "offerA" "answerA" "answerB" "B" searching 0
           [Some "c1"; Some "c2"]); reflexivity.
Defined.

Lemma onPaired_webrtc P c :
  webrtc (onPaired P c) = (createOffer P (webrtc c)).1.
Proof.
  unfold onPaired. cbn [webrtc setIsInitiator setStatus set_app].
  destruct (createOffer P (webrtc c)) as [w [offer|]]; [|done].
  unfold sendOffer. cbn [fst webrtc setStatus set_app].
  match goal with
  | |- context [send ?m ?x] => by destruct (send_keeps m x) as (_ & -> & _)
  end.
Qed.

(** When the partner leaves, the peer connection is dropped: an answer
    or a candidate that still arrives is ignored, whatever the browser,
    and the next pairing starts from a new peer connection that carries
    nothing over. *)
Theorem partner_left_resets_negotiation
    (P : Platform) (o a : string) (c : Client) (payload : Payload) (from partner : string) :
  let c1 := handleMessage P PartnerLeft c in
  peerConnection (webrtc c1) = None ∧ partnerId (signaling c1) = None ∧
  handleMessage P (AnswerFrom payload from) c1 = c1 ∧
  handleMessage P (IceCandidateFrom payload from) c1 = c1 ∧
  peerConnection (webrtc (handleMessage (w3c o a) (Paired partner)
                            (handleMessage (w3c o a) PartnerLeft c))) =
    Some (mkPC (Some o) None []).
Proof.
  cbv zeta.
  assert (∀ Q, peerConnection (webrtc (handleMessage Q PartnerLeft c)) = None) as Hpc.
  { intros Q. cbn. unfold closePeerConnection.
    by destruct (peerConnection (webrtc c)) eqn:E. }
  split; [apply Hpc|]. split; [done|]. split; [|split].
  - pose proof (Hpc P) as HP. set (c1 := handleMessage P PartnerLeft c) in *.
    change (onAnswer P payload c1 = c1). unfold onAnswer, handleAnswer.
    rewrite HP. apply set_webrtc_same.
  - pose proof (Hpc P) as HP. set (c1 := handleMessage P PartnerLeft c) in *.
    change (onIceCandidate P payload c1 = c1).
    by apply onIceCandidate_no_connection.
  - specialize (Hpc (w3c o a)).
    set (c1 := handleMessage (w3c o a) PartnerLeft c) in *.
    change (handleMessage (w3c o a) (Paired partner) c1)
      with (onPaired (w3c o a) (set_partnerId (Some partner) c1)).
    rewrite onPaired_webrtc. unfold createOffer, ensurePeerConnection.
    change (webrtc (set_partnerId (Some partner) c1)) with (webrtc c1).
    by rewrite Hpc.
Qed.

(** *** Muting *)

(** The camera toggle flips the first video track, keeps every other
    track as it is, and reports the state it left that track in; the
    microphone toggle does the same on the audio side.  Without a stream,
    or without a track of the kind, nothing changes and false is
    reported.  Toggling twice gives back the stream as it was. *)
Theorem toggle_twice_restores
    (stream : option MediaStream) (track : bool) (others video audio : list bool) :
  toggleVideo (Some (mkStream (track :: others) audio)) =
    (Some (mkStream (negb track :: others) audio), negb track) ∧
  toggleAudio (Some (mkStream video (track :: others))) =
    (Some (mkStream video (negb track :: others)), negb track) ∧
  toggleVideo (Some (mkStream [] audio)) = (Some (mkStream [] audio), false) ∧
  toggleAudio (Some (mkStream video [])) = (Some (mkStream video []), false) ∧
  toggleVideo None = (None, false) ∧ toggleAudio None = (None, false) ∧
  (toggleVideo (toggleVideo stream).1).1 = stream ∧
  (toggleAudio (toggleAudio stream).1).1 = stream ∧
  (toggleVideo (toggleVideo stream).1).2 =
    match stream with
    | Some st => default false (head (videoTracks st))
    | None => false
    end ∧
  (toggleAudio (toggleAudio stream).1).2 =
    match stream with
    | Some st => default false (head (audioTracks st))
    | None => false
    end.
Proof.
  repeat split.
  - destruct stream as [[[|v vs] au]|]; cbn; by rewrite ?negb_involutive.
  - destruct stream as [[vi [|x xs]]|]; cbn; by rewrite ?negb_involutive.
  - destruct stream as [[[|v vs] au]|]; cbn; by rewrite ?negb_involutive.
  - destruct stream as [[vi [|x xs]]|]; cbn; by rewrite ?negb_involutive.
Qed.

End ClientMore.
